(** * Editor.js: the post editor of you-side

    A shallow embedding of [src/components/Editor.js].  The component is a
    React function component: its state lives in [useState] cells, its
    handlers read the values captured by the render closure and write
    through the setters, and everything outside the component (the Orbis
    client, [fetch], the router, the parent's callback, the DOM textarea) is
    an external collaborator.

    - JavaScript strings are sequences of UTF-16 code units: [jsstring].
    - The [useState] cells are the record [Editor]; the textarea behind
      [textareaRef] is the record [Textarea].
    - Handlers are computations in the monad [M]: they thread the [World]
      (state cells, DOM, pending timers, log of observable events) and end
      normally or by a thrown exception.
    - The answers of the external collaborators are the fields of [Env];
      the component's props are [Props]. *)

From Stdlib Require Import String Ascii.
From Stdlib Require Import List Arith NArith Bool Lia.
Import ListNotations.

Set Implicit Arguments.

(** ** JavaScript strings *)

Module JS.

(** A string is the list of its UTF-16 code units; [length] is [.length]. *)
Definition jsstring := list N.

(** A literal, written with the characters of its code units. *)
Definition lit (s : string) : jsstring :=
  List.map N_of_ascii (list_ascii_of_string s).

(** [!s] on a string: only the empty string is falsy. *)
Definition falsy (s : jsstring) : bool :=
  match s with [] => true | _ :: _ => false end.

(** [a || b] on strings. *)
Definition or_else (a b : jsstring) : jsstring :=
  if falsy a then b else a.

(** [s.substring(start, end)]: both arguments are clamped to the length and
    swapped when [start > end] (the offsets are never negative here). *)
Definition substring (s : jsstring) (start_ end_ : nat) : jsstring :=
  let len := length s in
  let finalStart := Nat.min start_ len in
  let finalEnd := Nat.min end_ len in
  let from := Nat.min finalStart finalEnd in
  let to := Nat.max finalStart finalEnd in
  firstn (to - from) (skipn from s).

(** [s.substring(start)]: the end defaults to the length. *)
Definition substring_from (s : jsstring) (start_ : nat) : jsstring :=
  substring s start_ (length s).

(** WhiteSpace and LineTerminator code units of ECMAScript, as removed by
    [String.prototype.trim]. *)
Definition isWhiteSpace (c : N) : bool :=
  (((9 <=? c) && (c <=? 13)) || (c =? 32) || (c =? 160) || (c =? 5760)
   || ((8192 <=? c) && (c <=? 8202)) || (c =? 8232) || (c =? 8233)
   || (c =? 8239) || (c =? 8287) || (c =? 12288) || (c =? 65279))%N.

Fixpoint trimStart (s : jsstring) : jsstring :=
  match s with
  | [] => []
  | c :: r => if isWhiteSpace c then trimStart r else s
  end.

Definition trimEnd (s : jsstring) : jsstring := rev (trimStart (rev s)).

(** [s.trim()] *)
Definition trim (s : jsstring) : jsstring := trimEnd (trimStart s).

(** [s.match(/^p/)] as a test: [s] starts with the code units of [p]. *)
Fixpoint startsWith (p s : jsstring) : bool :=
  match p, s with
  | [], _ => true
  | _ :: _, [] => false
  | a :: p', b :: s' => (a =? b)%N && startsWith p' s'
  end.

(** Empty or whitespace-only. *)
Definition blank (s : jsstring) : bool := forallb isWhiteSpace s.

(** The buffer slices [text[a:b]] and [text[a:]] of the specification. *)
Definition slice (s : jsstring) (a b : nat) : jsstring :=
  firstn (b - a) (skipn a s).

Definition slice_from (s : jsstring) (a : nat) : jsstring := skipn a s.

(** The specification's [selected or fallback]: the selected text when the
    selection is not empty, the fallback otherwise. *)
Definition selected_or (start_ end_ : nat) (s fallback : jsstring) : jsstring :=
  if start_ <? end_ then slice s start_ end_ else fallback.

End JS.
Import JS.

(** ** The textarea and the text-wrap computation *)

Record Textarea := mkTextarea {
  value : jsstring;
  selectionStart : nat;
  selectionEnd : nat;
  focused : bool
}.

(** [textarea.setSelectionRange(a, b)]: offsets past the end point at the
    end; an end not after the start collapses the selection at the end
    offset. *)
Definition setSelectionRange (a b : nat) (t : Textarea) : Textarea :=
  let len := length (value t) in
  let a' := Nat.min a len in
  let b' := Nat.min b len in
  if b' <=? a'
  then mkTextarea (value t) b' b' (focused t)
  else mkTextarea (value t) a' b' (focused t).

Definition focus (t : Textarea) : Textarea :=
  mkTextarea (value t) (selectionStart t) (selectionEnd t) true.

(** The text currently selected in the control. *)
Definition selectedRange (t : Textarea) : jsstring :=
  substring (value t) (selectionStart t) (selectionEnd t).

(** Lines 49-58 of [wrapText]: what is computed from the textarea. *)
Record Wrapped := mkWrapped {
  selectedText : jsstring;
  newText : jsstring;
  rangeStart : nat;
  rangeEnd : nat
}.

Definition wrapCompute (t : Textarea) (before after defaultText : jsstring)
  : Wrapped :=
  let start_ := selectionStart t in
  let end_ := selectionEnd t in
  let sel := or_else (substring (value t) start_ end_) defaultText in
  let new :=
    substring (value t) 0 start_ ++ before ++ sel ++ after
    ++ substring_from (value t) end_ in
  mkWrapped sel new
    (start_ + length before)
    (start_ + length before + length sel).

(** ** The component's state, props and surroundings *)

(** The result object of an upload; the component never looks inside. *)
Record MediaRef := mkMediaRef { mediaPayload : jsstring }.

Record File := mkFile { fileType : jsstring; fileName : jsstring }.

(** The object sent to [createPost] / [editPost] (lines 181-186). *)
Record Content := mkContent {
  c_title : jsstring;
  c_body : jsstring;
  c_context : jsstring;
  c_media : list MediaRef
}.

(** An existing post handed to the editor; an absent field of its content
    is the empty string, which [||] treats alike. *)
Record Post := mkPost { stream_id : jsstring; content : Content }.

Record User := mkUser { did : jsstring }.

(** The [useState] cells (lines 13-21); [status] is the number the code
    stores: 0 idle, 1 submitting, 2 success, 3 error. *)
Record Editor := mkEditor {
  title : jsstring;
  body : jsstring;
  media : list MediaRef;
  mediaLoading : bool;
  category : jsstring;
  status : nat;
  isDropdownOpen : bool;
  isAILoading : bool;
  error : jsstring
}.

Definition with_title v (e : Editor) :=
  mkEditor v (body e) (media e) (mediaLoading e) (category e) (status e)
    (isDropdownOpen e) (isAILoading e) (error e).
Definition with_body v (e : Editor) :=
  mkEditor (title e) v (media e) (mediaLoading e) (category e) (status e)
    (isDropdownOpen e) (isAILoading e) (error e).
Definition with_media v (e : Editor) :=
  mkEditor (title e) (body e) v (mediaLoading e) (category e) (status e)
    (isDropdownOpen e) (isAILoading e) (error e).
Definition with_mediaLoading v (e : Editor) :=
  mkEditor (title e) (body e) (media e) v (category e) (status e)
    (isDropdownOpen e) (isAILoading e) (error e).
Definition with_category v (e : Editor) :=
  mkEditor (title e) (body e) (media e) (mediaLoading e) v (status e)
    (isDropdownOpen e) (isAILoading e) (error e).
Definition with_status v (e : Editor) :=
  mkEditor (title e) (body e) (media e) (mediaLoading e) (category e) v
    (isDropdownOpen e) (isAILoading e) (error e).
Definition with_isDropdownOpen v (e : Editor) :=
  mkEditor (title e) (body e) (media e) (mediaLoading e) (category e)
    (status e) v (isAILoading e) (error e).
Definition with_isAILoading v (e : Editor) :=
  mkEditor (title e) (body e) (media e) (mediaLoading e) (category e)
    (status e) (isDropdownOpen e) v (error e).
Definition with_error v (e : Editor) :=
  mkEditor (title e) (body e) (media e) (mediaLoading e) (category e)
    (status e) (isDropdownOpen e) (isAILoading e) v.

(** The initial values of the cells: [post?.content?.title || ''] and so
    on. *)
Definition initEditor (post : option Post) : Editor :=
  match post with
  | Some p =>
      mkEditor (c_title (content p)) (c_body (content p))
        (c_media (content p)) false (c_context (content p)) 0 false false []
  | None => mkEditor [] [] [] false [] 0 false false []
  end.

(** A thrown value: one that has properties, with the [message] the
    handlers read (the empty string when it has none); or [undefined] or
    [null], which a promise can be rejected with as well. *)
Inductive JsError :=
| mkError (message : jsstring)
| nullish.

(** What an awaited promise does. *)
Inductive Outcome (A : Type) :=
| Resolves (a : A)
| Rejects (e : JsError).
Arguments Rejects {A} e.

Record UploadRes := mkUploadRes { up_status : nat; up_result : MediaRef }.
Record PostRes := mkPostRes { res_status : nat; res_error : jsstring }.
Record JsonBody := mkJson { j_message : jsstring; j_content : jsstring }.
Record HttpRes := mkHttp { ok : bool; json : Outcome JsonBody }.

(** The external collaborators, by what they answer.
    [CREATE_POST] is [POINTS_RULES.CREATE_POST] of [../config/points] and
    [getIpfsLink] the helper of [../utils]; neither is part of this file. *)
Record Env := mkEnv {
  user : option User;
  uploadMedia : File -> Outcome UploadRes;
  createPost : Content -> Outcome PostRes;
  editPost : jsstring -> Content -> Outcome PostRes;
  fetchAwardPoints : jsstring -> N -> Outcome HttpRes;
  fetchGenerate : Outcome HttpRes;
  getIpfsLink : MediaRef -> jsstring;
  promptAnswer : option jsstring;
  pathname : jsstring;
  routerReplace : Outcome unit;
  CREATE_POST : N
}.

Record Props := mkProps {
  post : option Post;
  onPostCreated : option (Outcome unit)
}.

(** Everything a handler does that can be seen from outside, in order. *)
Inductive Event :=
| ESetTitle (v : jsstring)
| ESetBody (v : jsstring)
| ESetMedia (v : list MediaRef)
| ESetMediaLoading (v : bool)
| ESetCategory (v : jsstring)
| ESetStatus (v : nat)
| ESetIsDropdownOpen (v : bool)
| ESetIsAILoading (v : bool)
| ESetError (v : jsstring)
| EUploadMedia (f : File)
| ECreatePost (c : Content)
| EEditPost (id : jsstring) (c : Content)
| EFetchAwardPoints (d : jsstring) (points : N)
| EFetchGenerate
| EOnPostCreated
| ESleep (ms : nat)
| ERouterReplace (path : jsstring)
| EConsoleError (label : jsstring)
| EAlert (msg : jsstring)
| EPrompt (msg : jsstring)
| ESetTimeout (ms : nat).

(** The callback [wrapText] hands to [setTimeout]: focus the textarea and
    select the range. *)
Record Timer := mkTimer { selFrom : nat; selTo : nat }.

Record World := mkWorld {
  editor : Editor;
  textareaRef : option Textarea;
  timers : list Timer;
  trace : list Event
}.

(** ** The handler monad: state, log and exceptions *)

Inductive Completion (A : Type) :=
| Normal (a : A)
| Abrupt (e : JsError).
Arguments Abrupt {A} e.

Definition M (A : Type) := World -> Completion A * World.

Definition ret {A} (a : A) : M A := fun w => (Normal a, w).

Definition bind {A B} (m : M A) (k : A -> M B) : M B :=
  fun w =>
    match m w with
    | (Normal a, w') => k a w'
    | (Abrupt e, w') => (Abrupt e, w')
    end.

Declare Scope js_scope.
Delimit Scope js_scope with js.
Notation "x <- m ;; k" := (bind m (fun x => k))
  (at level 61, m at next level, right associativity) : js_scope.
Notation "m ;; k" := (bind m (fun _ => k))
  (at level 61, right associativity) : js_scope.
Open Scope js_scope.

Definition throw {A} (e : JsError) : M A := fun w => (Abrupt e, w).

(** [try { m } catch (e) { h e }] *)
Definition tryCatch {A} (m : M A) (h : JsError -> M A) : M A :=
  fun w =>
    match m w with
    | (Normal a, w') => (Normal a, w')
    | (Abrupt e, w') => h e w'
    end.

(** [try { m } finally { f }] *)
Definition tryFinally {A} (m : M A) (f : M unit) : M A :=
  fun w =>
    match m w with
    | (c, w') =>
        match f w' with
        | (Normal _, w'') => (c, w'')
        | (Abrupt e, w'') => (Abrupt e, w'')
        end
    end.

Definition emit (ev : Event) : M unit :=
  fun w =>
    (Normal tt,
     mkWorld (editor w) (textareaRef w) (timers w) (trace w ++ [ev])).

Definition modify (f : Editor -> Editor) : M unit :=
  fun w =>
    (Normal tt, mkWorld (f (editor w)) (textareaRef w) (timers w) (trace w)).

(** The values of the cells as the render closure captured them. *)
Definition snapshot : M Editor := fun w => (Normal (editor w), w).

(** [await p] *)
Definition await {A} (p : Outcome A) : M A :=
  match p with
  | Resolves a => ret a
  | Rejects e => throw e
  end.

(** [error.message]: reading a property of [undefined] or [null] is a
    [TypeError]. *)
Definition readMessage (err : JsError) : M jsstring :=
  match err with
  | mkError m => ret m
  | nullish => throw (mkError (lit "Cannot read properties of undefined"))
  end.

Definition setTitle v : M unit := emit (ESetTitle v) ;; modify (with_title v).
Definition setBody v : M unit := emit (ESetBody v) ;; modify (with_body v).
Definition setMedia v : M unit := emit (ESetMedia v) ;; modify (with_media v).
Definition setMediaLoading v : M unit :=
  emit (ESetMediaLoading v) ;; modify (with_mediaLoading v).
Definition setCategory v : M unit :=
  emit (ESetCategory v) ;; modify (with_category v).
Definition setStatus v : M unit :=
  emit (ESetStatus v) ;; modify (with_status v).
Definition setIsDropdownOpen v : M unit :=
  emit (ESetIsDropdownOpen v) ;; modify (with_isDropdownOpen v).
Definition setIsAILoading v : M unit :=
  emit (ESetIsAILoading v) ;; modify (with_isAILoading v).
Definition setError v : M unit := emit (ESetError v) ;; modify (with_error v).

Definition sleep (ms : nat) : M unit := emit (ESleep ms).
Definition consoleError (label : jsstring) : M unit :=
  emit (EConsoleError label).

(** [textareaRef.current], dereferenced: a [TypeError] while the ref is
    unset. *)
Definition currentTextarea : M Textarea :=
  fun w =>
    match textareaRef w with
    | Some t => (Normal t, w)
    | None =>
        (Abrupt (mkError (lit "Cannot read properties of undefined")), w)
    end.

Definition setTimeout (cb : Timer) (ms : nat) : M unit :=
  emit (ESetTimeout ms) ;;
  fun w =>
    (Normal tt,
     mkWorld (editor w) (textareaRef w) (timers w ++ [cb]) (trace w)).

(** ** The component *)

(** The category tags offered by the dropdown (lines 296-306). *)
Inductive Category :=
| Projects | PublicGoods | Dapps | Events | Research
| Governance | Tutorials | Announcements | Discussions.

Definition categoryTag (c : Category) : jsstring :=
  match c with
  | Projects => lit "projects"
  | PublicGoods => lit "public-goods"
  | Dapps => lit "dapps"
  | Events => lit "events"
  | Research => lit "research"
  | Governance => lit "governance"
  | Tutorials => lit "tutorials"
  | Announcements => lit "announcements"
  | Discussions => lit "discussions"
  end.

Definition jsstring_eqb (a b : jsstring) : bool :=
  if list_eq_dec N.eq_dec a b then true else false.

(** The [disabled] attribute of the Post button (line 322). *)
Definition postDisabled (e : Editor) : bool :=
  falsy (category e) || falsy (title e) || falsy (body e) || (status e =? 1).

Section Component.

Variable env : Env.
Variable props : Props.

(** Lines 39-45. *)
Definition resetForm : M unit :=
  setTitle [] ;;
  setBody [] ;;
  setMedia [] ;;
  setCategory [] ;;
  setError [].

(** Lines 47-69. *)
Definition wrapText (before after defaultText : jsstring) : M unit :=
  textarea <- currentTextarea ;;
  let r := wrapCompute textarea before after defaultText in
  setBody (newText r) ;;
  setTimeout (mkTimer (rangeStart r) (rangeEnd r)) 0.

(** Lines 71-81. *)
Definition addBold : M unit :=
  wrapText (lit "**") (lit "**") (lit "bold text").
Definition addItalic : M unit :=
  wrapText (lit "_") (lit "_") (lit "italic text").
Definition addHeading2 : M unit :=
  wrapText (lit "## ") [10%N] (lit "Heading 2").
Definition addHeading3 : M unit :=
  wrapText (lit "### ") [10%N] (lit "Heading 3").
Definition addCodeBlock : M unit :=
  wrapText (lit "```" ++ [10%N]) (10%N :: lit "```") (lit "code block").
Definition addLink : M unit :=
  emit (EPrompt (lit "Enter URL:")) ;;
  match promptAnswer env with
  | Some url =>
      if falsy url then ret tt
      else wrapText (lit "[") (lit "](" ++ url ++ lit ")") (lit "link text")
  | None => ret tt
  end.

(** Lines 84-101; [file] is [event.target.files[0]]. *)
Definition addImage (file : option File) : M unit :=
  snap <- snapshot ;;
  setMediaLoading true ;;
  match file with
  | Some f =>
      if startsWith (lit "image/") (fileType f) then
        tryCatch
          (res <- (emit (EUploadMedia f) ;; await (uploadMedia env f)) ;;
           if up_status res =? 200 then
             wrapText (lit "![")
               (lit "](" ++ getIpfsLink env (up_result res) ++ lit ")")
               (lit "Image description") ;;
             setMedia (media snap ++ [up_result res])
           else setError (lit "Error uploading image. Please try again."))
          (fun _ => setError (lit "Failed to upload image. Please try again."))
      else ret tt
  | None => ret tt
  end ;;
  setMediaLoading false.

(** Lines 104-127: the request is issued when the function is called; its
    answer is handled inside the function's own [try]. *)
Definition awardPoints (d : jsstring) (points : N) : M (option JsonBody) :=
  tryCatch
    (response <- (emit (EFetchAwardPoints d points) ;;
                  await (fetchAwardPoints env d points)) ;;
     if negb (ok response) then
       errorData <- await (json response) ;;
       throw (mkError
                (or_else (j_message errorData) (lit "Failed to award points")))
     else
       data <- await (json response) ;;
       ret (Some data))
    (fun _ =>
       consoleError (lit "Error awarding points:") ;;
       ret None).

(** Lines 130-159. *)
Definition generatePostWithAI : M unit :=
  match user env with
  | None => emit (EAlert (lit "You must be connected to use this feature."))
  | Some _ =>
      setIsAILoading true ;;
      tryFinally
        (tryCatch
           (response <- (emit EFetchGenerate ;; await (fetchGenerate env)) ;;
            if negb (ok response) then
              throw (mkError (lit "Failed to generate post"))
            else
              data <- await (json response) ;;
              setBody (j_content data))
           (fun _ =>
              consoleError (lit "Error generating post:") ;;
              setError (lit "Failed to generate post. Please try again.")))
        (setIsAILoading false)
  end.

(** Lines 161-226.  The call of [awardPoints] is not awaited: what it does
    after its request is logged here at the place of the call. *)
Definition updateArticle : M unit :=
  snap <- snapshot ;;
  if falsy (category snap) then setError (lit "Please select a category")
  else if falsy (trim (title snap)) then setError (lit "Please enter a title")
  else if falsy (trim (body snap)) then setError (lit "Please enter content")
  else
    setStatus 1 ;;
    setError [] ;;
    tryCatch
      (let c :=
         mkContent (trim (title snap)) (trim (body snap)) (category snap)
           (media snap) in
       res <- match post props with
              | Some p =>
                  emit (EEditPost (stream_id p) c) ;;
                  await (editPost env (stream_id p) c)
              | None =>
                  emit (ECreatePost c) ;;
                  await (createPost env c)
              end ;;
       if res_status res =? 200 then
         match post props, user env with
         | None, Some u =>
             tryCatch
               (awardPoints (did u) (CREATE_POST env) ;; ret tt)
               (fun _ => consoleError (lit "Error awarding points:"))
         | _, _ => ret tt
         end ;;
         setStatus 2 ;;
         resetForm ;;
         match onPostCreated props with
         | Some cb => emit EOnPostCreated ;; await cb
         | None => ret tt
         end ;;
         sleep 500 ;;
         if negb (jsstring_eqb (pathname env) (lit "/")) then
           emit (ERouterReplace (lit "/")) ;;
           await (routerReplace env)
         else ret tt
       else
         throw (mkError
                  (or_else (res_error res) (lit "Failed to create post"))))
      (fun err =>
         consoleError (lit "Error creating/editing post:") ;;
         msg <- readMessage err ;;
         setError (or_else msg (lit "Failed to create post")) ;;
         setStatus 3 ;;
         sleep 1000 ;;
         setStatus 0).

(** The dropdown's outside-click listener (lines 27-31); [inside] is
    [dropdownRef.current.contains(event.target)]. *)
Definition handleClickOutside (inside : bool) : M unit :=
  if negb inside then setIsDropdownOpen false else ret tt.

(** What the user can do to the rendered component. *)
Inductive Action :=
| TypeTitle (v : jsstring)
| TypeBody (v : jsstring)
| SelectText (a b : nat)
| ClickGenerate
| PickImage (file : option File)
| ClickBold
| ClickItalic
| ClickCodeBlock
| ClickDropdown
| PickCategory (c : Category)
| MouseDown (inside : bool)
| ClickPost.

(** The user edits the textarea: the control holds the typed text, with
    the caret at its end. *)
Definition userInput (v : jsstring) : M unit :=
  fun w =>
    (Normal tt,
     mkWorld (editor w)
       (option_map
          (fun t => mkTextarea v (length v) (length v) (focused t))
          (textareaRef w))
       (timers w) (trace w)).

Definition userSelect (a b : nat) : M unit :=
  fun w =>
    (Normal tt,
     mkWorld (editor w) (option_map (setSelectionRange a b) (textareaRef w))
       (timers w) (trace w)).

(** The event handlers wired in the JSX (lines 232-339).  The image button
    is replaced by a disabled one while an upload is pending, and a
    disabled Post button does not fire. *)
Definition dispatch (a : Action) : M unit :=
  snap <- snapshot ;;
  match a with
  | TypeTitle v => setTitle v
  | TypeBody v => userInput v ;; setBody v
  | SelectText a b => userSelect a b
  | ClickGenerate => generatePostWithAI
  | PickImage file => if mediaLoading snap then ret tt else addImage file
  | ClickBold => addBold
  | ClickItalic => addItalic
  | ClickCodeBlock => addCodeBlock
  | ClickDropdown => setIsDropdownOpen (negb (isDropdownOpen snap))
  | PickCategory c => setCategory (categoryTag c) ;; setIsDropdownOpen false
  | MouseDown inside => handleClickOutside inside
  | ClickPost => if postDisabled snap then ret tt else updateArticle
  end.

(** After a handler has run React renders: the controlled textarea takes
    the body as its value (the caret goes to the end when the value
    changed), and then the pending timers fire. *)
Definition syncTextarea (b : jsstring) (t : Textarea) : Textarea :=
  if jsstring_eqb (value t) b then t
  else mkTextarea b (length b) (length b) (focused t).

Definition fireTimer (t : Textarea) (cb : Timer) : Textarea :=
  setSelectionRange (selFrom cb) (selTo cb) (focus t).

Definition settle (w : World) : World :=
  let rendered := option_map (syncTextarea (body (editor w))) (textareaRef w) in
  mkWorld (editor w)
    (option_map (fun t => fold_left fireTimer (timers w) t) rendered)
    [] (trace w).

Definition step (w : World) (a : Action) : World :=
  settle (snd (dispatch a w)).

(** Every function the component defines, with its arguments. *)
Inductive Operation :=
| OnTitleChange (v : jsstring)
| OnBodyChange (v : jsstring)
| ResetForm
| AddBold
| AddItalic
| AddHeading2
| AddHeading3
| AddCodeBlock
| AddLink
| AddImage (file : option File)
| AwardPoints (d : jsstring) (points : N)
| GeneratePostWithAI
| UpdateArticle
| ToggleDropdown
| ChooseCategory (c : Category)
| HandleClickOutside (inside : bool).

Definition perform (op : Operation) : M unit :=
  snap <- snapshot ;;
  match op with
  | OnTitleChange v => setTitle v
  | OnBodyChange v => setBody v
  | ResetForm => resetForm
  | AddBold => addBold
  | AddItalic => addItalic
  | AddHeading2 => addHeading2
  | AddHeading3 => addHeading3
  | AddCodeBlock => addCodeBlock
  | AddLink => addLink
  | AddImage file => addImage file
  | AwardPoints d points => awardPoints d points ;; ret tt
  | GeneratePostWithAI => generatePostWithAI
  | UpdateArticle => updateArticle
  | ToggleDropdown => setIsDropdownOpen (negb (isDropdownOpen snap))
  | ChooseCategory c => setCategory (categoryTag c) ;; setIsDropdownOpen false
  | HandleClickOutside inside => handleClickOutside inside
  end.

Definition run (w : World) (l : list Action) : World := fold_left step l w.

End Component.

(** The component as first mounted. *)
Definition mount (props : Props) : World :=
  let e := initEditor (post props) in
  mkWorld e
    (Some (mkTextarea (body e) (length (body e)) (length (body e)) false))
    [] [].

(** ** Vocabulary of the properties *)

(** The events a handler added to the log of [w]. *)
Definition since (w w' : World) : list Event :=
  skipn (length (trace w)) (trace w').

Definition submitCall (ev : Event) : bool :=
  match ev with
  | ECreatePost _ | EEditPost _ _ => true
  | _ => false
  end.

Definition awardRequest (ev : Event) : bool :=
  match ev with
  | EFetchAwardPoints _ _ => true
  | _ => false
  end.

(** The calls of the state setters. *)
Definition cellWrite (ev : Event) : bool :=
  match ev with
  | ESetTitle _ | ESetBody _ | ESetMedia _ | ESetMediaLoading _
  | ESetCategory _ | ESetStatus _ | ESetIsDropdownOpen _
  | ESetIsAILoading _ | ESetError _ => true
  | _ => false
  end.

Definition consoleEvent (ev : Event) : bool :=
  match ev with
  | EConsoleError _ => true
  | _ => false
  end.

Definition statusWrite (ev : Event) : list nat :=
  match ev with
  | ESetStatus n => [n]
  | _ => []
  end.

(** The values written to the status cell, in order. *)
Definition statusWrites (tr : list Event) : list nat := flat_map statusWrite tr.

(** The draft passes the three checks of lines 162-175. *)
Definition valid (e : Editor) : bool :=
  negb (falsy (category e)) && negb (blank (title e)) && negb (blank (body e)).

(** The object the handler submits. *)
Definition contentOf (e : Editor) : Content :=
  mkContent (trim (title e)) (trim (body e)) (category e) (media e).

(** What the content protocol client answers to this submission. *)
Definition submission (env : Env) (props : Props) (e : Editor)
  : Outcome PostRes :=
  match post props with
  | Some p => editPost env (stream_id p) (contentOf e)
  | None => createPost env (contentOf e)
  end.

(** The create or edit call did not deliver: it threw, or answered with a
    status other than 200. *)
Definition submissionFailed (o : Outcome PostRes) : bool :=
  match o with
  | Resolves r => negb (res_status r =? 200)
  | Rejects _ => true
  end.

(** The promise was rejected with [undefined] or [null]. *)
Definition valueless {A} (o : Outcome A) : bool :=
  match o with
  | Rejects nullish => true
  | _ => false
  end.

Definition submissionAccepted (o : Outcome PostRes) : bool :=
  match o with
  | Resolves r => res_status r =? 200
  | Rejects _ => false
  end.

(** What follows a successful submission (the parent's callback, the
    redirect) completes. *)
Definition followUpCompletes (env : Env) (props : Props) : bool :=
  match onPostCreated props with
  | Some (Rejects _) => false
  | _ => true
  end
  && (jsstring_eqb (pathname env) (lit "/")
      || match routerReplace env with
         | Resolves _ => true
         | Rejects _ => false
         end).

(** The upload call did not deliver: it threw, or answered with a status
    other than 200. *)
Definition uploadFailed (o : Outcome UploadRes) : bool :=
  match o with
  | Resolves r => negb (up_status r =? 200)
  | Rejects _ => true
  end.

(** The environment with another points endpoint. *)
Definition with_fetchAwardPoints (f : jsstring -> N -> Outcome HttpRes)
    (env : Env) : Env :=
  mkEnv (user env) (uploadMedia env) (createPost env) (editPost env) f
    (fetchGenerate env) (getIpfsLink env) (promptAnswer env) (pathname env)
    (routerReplace env) (CREATE_POST env).

(** The handler refused the draft: it set the error message [msg] and did
    nothing else. *)
Definition refusedWith (w : World) (msg : jsstring) : Completion unit * World :=
  (Normal tt,
   mkWorld (with_error msg (editor w)) (textareaRef w) (timers w)
     (trace w ++ [ESetError msg])).

(** ** Sample surroundings and drafts *)

(** No user; a client that accepts every post; the home page. *)
Definition quietEnv : Env :=
  mkEnv None
    (fun _ => Rejects (mkError []))
    (fun _ => Resolves (mkPostRes 200 []))
    (fun _ _ => Resolves (mkPostRes 200 []))
    (fun _ _ => Rejects (mkError []))
    (Rejects (mkError []))
    mediaPayload None (lit "/") (Resolves tt) 0%N.

(** A client and an upload service that answer with status 500. *)
Definition refusingEnv : Env :=
  mkEnv None
    (fun _ => Resolves (mkUploadRes 500 (mkMediaRef [])))
    (fun _ => Resolves (mkPostRes 500 (lit "stream error")))
    (fun _ _ => Resolves (mkPostRes 500 (lit "stream error")))
    (fun _ _ => Rejects (mkError []))
    (Rejects (mkError []))
    mediaPayload None (lit "/") (Resolves tt) 0%N.

(** A connected user, a client that accepts the post, and a points
    endpoint that is down. *)
Definition alice : User := mkUser (lit "did:pkh:alice").

Definition pointsDownEnv : Env :=
  mkEnv (Some alice)
    (fun _ => Rejects (mkError []))
    (fun _ => Resolves (mkPostRes 200 []))
    (fun _ _ => Resolves (mkPostRes 200 []))
    (fun _ _ => Rejects (mkError (lit "Failed to fetch")))
    (Rejects (mkError []))
    mediaPayload None (lit "/") (Resolves tt) 10%N.

Definition newPost : Props := mkProps None None.

(** A draft with a whitespace-only title. *)
Definition blankTitleDraft : Editor :=
  mkEditor (lit " ") (lit "text") [] false (categoryTag Dapps) 0 false false [].

(** An existing post whose context is a single space. *)
Definition blankContextPost : Post :=
  mkPost (lit "kjzl6") (mkContent (lit "title") (lit "text") (lit " ") []).

Definition filledDraft : World :=
  mkWorld (mkEditor (lit "title") (lit "text") [] false (categoryTag Dapps)
             0 false false [])
    (Some (mkTextarea (lit "text") 4 4 false)) [] [].

(** The textarea holding "hello world" with "world" selected, and the
    empty textarea. *)
Definition helloWorld : World :=
  mkWorld (initEditor None)
    (Some (mkTextarea (lit "hello world") 6 11 false)) [] [].

Definition emptyBuffer : World :=
  mkWorld (initEditor None) (Some (mkTextarea [] 0 0 false)) [] [].

(** A first post is accepted on the home page, and a second draft is
    typed into the same editor. *)
Definition secondDraft : World :=
  run quietEnv newPost (mount newPost)
    [PickCategory Dapps; TypeTitle (lit "first"); TypeBody (lit "text");
     ClickPost;
     PickCategory Events; TypeTitle (lit "second"); TypeBody (lit "more")].

Definition pngFile : File := mkFile (lit "image/png") (lit "cat.png").
Definition pdfFile : File := mkFile (lit "application/pdf") (lit "cv.pdf").

(** ** Further vocabulary *)

(** A trimmed string neither starts nor ends with whitespace. *)
Definition edgesClean (s : jsstring) : bool :=
  match s with
  | [] => true
  | c :: _ => negb (isWhiteSpace c) && negb (isWhiteSpace (last s c))
  end.

Definition uploadCall (ev : Event) : bool :=
  match ev with
  | EUploadMedia _ => true
  | _ => false
  end.

Definition generateCall (ev : Event) : bool :=
  match ev with
  | EFetchGenerate => true
  | _ => false
  end.

Definition redirectCall (ev : Event) : bool :=
  match ev with
  | ERouterReplace _ => true
  | _ => false
  end.

(** The call the handler makes for a draft: an edit of the existing post,
    or a creation. *)
Definition submitEvent (props : Props) (e : Editor) : Event :=
  match post props with
  | Some p => EEditPost (stream_id p) (contentOf e)
  | None => ECreatePost (contentOf e)
  end.

(** The message shown after a failed create or edit call (lines 178, 217,
    221): none when the catch block could not read one. *)
Definition failureMessage (o : Outcome PostRes) : jsstring :=
  match o with
  | Resolves r =>
      or_else (or_else (res_error r) (lit "Failed to create post"))
        (lit "Failed to create post")
  | Rejects (mkError m) => or_else m (lit "Failed to create post")
  | Rejects nullish => []
  end.

(** The first follow-up of a successful submission that throws, if any:
    the parent's callback, then the redirect. *)
Definition followUpError (env : Env) (props : Props) : option JsError :=
  match onPostCreated props with
  | Some (Rejects err) => Some err
  | _ =>
      if jsstring_eqb (pathname env) (lit "/") then None
      else match routerReplace env with
           | Resolves _ => None
           | Rejects err => Some err
           end
  end.

Definition allCategories : list Category :=
  [Projects; PublicGoods; Dapps; Events; Research; Governance; Tutorials;
   Announcements; Discussions].

(** The category cell of an editor for a new post: empty, or a tag of
    the dropdown. *)
Definition offered (c : jsstring) : bool :=
  falsy c || existsb (fun k => jsstring_eqb c (categoryTag k)) allCategories.

(** The cells between two user actions: no submission or upload or
    generation is in progress. *)
Definition atRest (e : Editor) : bool :=
  ((status e =? 0) || (status e =? 2))
  && negb (mediaLoading e) && negb (isAILoading e).

(** The parent's callback, when there is one, does not throw. *)
Definition callbackCompletes (props : Props) : bool :=
  match onPostCreated props with
  | Some (Rejects _) => false
  | _ => true
  end.

Definition onHomePage (env : Env) : bool :=
  jsstring_eqb (pathname env) (lit "/").

(** What [awardPoints] returns: the parsed body of an ok answer, [null]
    in every other case. *)
Definition awarded (o : Outcome HttpRes) : option JsonBody :=
  match o with
  | Resolves resp =>
      if ok resp then
        match json resp with
        | Resolves j => Some j
        | Rejects _ => None
        end
      else None
  | Rejects _ => None
  end.

(** The text the generation endpoint delivered, if it did. *)
Definition generated (o : Outcome HttpRes) : option jsstring :=
  match o with
  | Resolves resp =>
      if ok resp then
        match json resp with
        | Resolves j => Some (j_content j)
        | Rejects _ => None
        end
      else None
  | Rejects _ => None
  end.

(** The prompt was cancelled or left empty. *)
Definition noUrl (answer : option jsstring) : bool :=
  match answer with
  | Some url => falsy url
  | None => true
  end.

(** An upload service that stores every file. *)
Definition storingEnv : Env :=
  mkEnv (Some alice)
    (fun f => Resolves (mkUploadRes 200 (mkMediaRef (fileName f))))
    (fun _ => Resolves (mkPostRes 200 []))
    (fun _ _ => Resolves (mkPostRes 200 []))
    (fun _ _ => Resolves (mkHttp true (Resolves (mkJson [] []))))
    (Resolves (mkHttp true (Resolves (mkJson [] (lit "gm web3")))))
    (fun m => lit "ipfs://" ++ mediaPayload m)
    (Some (lit "https://a.io")) (lit "/post/1")
    (Rejects (mkError (lit "Route cancelled"))) 10%N.

(** A client whose calls are rejected without a value. *)
Definition silentEnv : Env :=
  mkEnv (Some alice)
    (fun _ => Rejects nullish)
    (fun _ => Rejects nullish)
    (fun _ _ => Rejects nullish)
    (fun _ _ => Rejects nullish)
    (Rejects nullish)
    mediaPayload None (lit "/") (Resolves tt) 10%N.

(** No promise that [updateArticle] awaits is rejected with [undefined]
    or [null]. *)
Definition rejectsWithValues (env : Env) (props : Props) : Prop :=
  (forall c, createPost env c <> Rejects nullish)
  /\ (forall id c, editPost env id c <> Rejects nullish)
  /\ routerReplace env <> Rejects nullish
  /\ onPostCreated props <> Some (Rejects nullish).

(** The cells between two user actions, whatever the surroundings do: the
    status is not error, and no upload or generation is in progress. *)
Definition settled (e : Editor) : bool :=
  (status e <=? 2) && negb (mediaLoading e) && negb (isAILoading e).

(** The filled draft after the textarea is gone. *)
Definition unmountedDraft : World :=
  mkWorld (editor filledDraft) None [] [].

(** The message of a refused draft: the first check that fails. *)
Definition refusalMessage (e : Editor) : jsstring :=
  if falsy (category e) then lit "Please select a category"
  else if blank (title e) then lit "Please enter a title"
  else lit "Please enter content".

(** * Properties *)

Arguments lit : simpl never.
Arguments trim : simpl never.

(** ** Strings *)

Section StringFacts.

Variable s : jsstring.

Lemma substring_prefix (n : nat) : substring s 0 n = firstn n s.
Proof.
  unfold substring. cbn [Nat.min skipn].
  rewrite Nat.max_0_l, Nat.sub_0_r.
  destruct (Nat.le_ge_cases n (length s)) as [H | H].
  - now rewrite Nat.min_l.
  - rewrite Nat.min_r by assumption.
    now rewrite !firstn_all2 by lia.
Qed.

Lemma substring_suffix (n : nat) : substring_from s n = skipn n s.
Proof.
  unfold substring_from, substring.
  rewrite Nat.min_id.
  destruct (Nat.le_ge_cases n (length s)) as [H | H].
  - rewrite (Nat.min_l n) by assumption.
    rewrite Nat.min_l, Nat.max_r by assumption.
    apply firstn_all2. rewrite length_skipn. lia.
  - rewrite (Nat.min_r n) by assumption.
    rewrite Nat.min_id, Nat.max_id, Nat.sub_diag.
    now rewrite (skipn_all2 s H).
Qed.

Lemma substring_ordered (a b : nat) : a <= b -> substring s a b = slice s a b.
Proof.
  intros Hab. unfold substring, slice.
  assert (Hm : Nat.min a (length s) <= Nat.min b (length s))
    by (apply Nat.min_le_compat_r; exact Hab).
  rewrite (Nat.min_l _ _ Hm), (Nat.max_r _ _ Hm). clear Hm.
  destruct (Nat.le_ge_cases a (length s)) as [Ha | Ha].
  - rewrite (Nat.min_l a) by assumption.
    destruct (Nat.le_ge_cases b (length s)) as [Hb | Hb].
    + now rewrite Nat.min_l.
    + rewrite Nat.min_r by assumption.
      rewrite !firstn_all2; trivial; rewrite length_skipn; lia.
  - rewrite !(skipn_all2 s) by lia. now rewrite !firstn_nil.
Qed.

Lemma slice_length (a b : nat) :
  a <= b -> b <= length s -> length (slice s a b) = b - a.
Proof.
  intros Hab Hb. unfold slice.
  rewrite length_firstn, length_skipn. lia.
Qed.

(** Within the buffer, the selected text is empty exactly when the
    selection is. *)
Lemma selected_or_substring (a b : nat) (fallback : jsstring) :
  a <= b -> b <= length s ->
  or_else (substring s a b) fallback = selected_or a b s fallback.
Proof.
  intros Hab Hb. rewrite substring_ordered by assumption.
  unfold or_else, selected_or.
  pose proof (slice_length Hab Hb) as Hlen.
  destruct (Nat.ltb_spec a b) as [Hlt | Hge].
  - destruct (slice s a b); [simpl in Hlen; lia | reflexivity].
  - destruct (slice s a b); [reflexivity | simpl in Hlen; lia].
Qed.

End StringFacts.

Lemma trimStart_blank (s : jsstring) : falsy (trimStart s) = blank s.
Proof.
  induction s as [| c r IH]; simpl; trivial.
  destruct (isWhiteSpace c); simpl; trivial.
Qed.

Lemma blank_trimStart (s : jsstring) : blank (trimStart s) = blank s.
Proof.
  induction s as [| c r IH]; simpl; trivial.
  destruct (isWhiteSpace c) eqn:E; simpl; trivial.
  now rewrite E.
Qed.

Lemma blank_rev (s : jsstring) : blank (rev s) = blank s.
Proof.
  unfold blank. induction s as [| c r IH]; simpl; trivial.
  rewrite forallb_app, IH. simpl. rewrite andb_true_r. apply andb_comm.
Qed.

Lemma falsy_rev (s : jsstring) : falsy (rev s) = falsy s.
Proof.
  destruct s as [| c r]; simpl; trivial.
  destruct (rev r); reflexivity.
Qed.

(** [!s.trim()] holds exactly of the empty and the whitespace-only
    strings. *)
Lemma falsy_trim (s : jsstring) : falsy (trim s) = blank s.
Proof.
  unfold trim, trimEnd.
  now rewrite falsy_rev, trimStart_blank, blank_rev, blank_trimStart.
Qed.

Lemma falsy_blank (s : jsstring) : falsy s = true -> blank s = true.
Proof. destruct s; simpl; [trivial | discriminate]. Qed.

Lemma substring_middle (pre mid post_ : jsstring) :
  substring (pre ++ mid ++ post_) (length pre) (length pre + length mid) = mid.
Proof.
  rewrite substring_ordered by lia. unfold slice.
  rewrite skipn_app, Nat.sub_diag, skipn_all. cbn [skipn app].
  replace (length pre + length mid - length pre) with (length mid) by lia.
  rewrite firstn_app, Nat.sub_diag, firstn_all. cbn [firstn].
  apply app_nil_r.
Qed.

(** ** The textarea *)

Lemma setSelectionRange_value (a b : nat) (t : Textarea) :
  value (setSelectionRange a b t) = value t.
Proof. unfold setSelectionRange. now destruct (_ <=? _). Qed.

Lemma setSelectionRange_within (a b : nat) (t : Textarea) :
  a <= b -> b <= length (value t) ->
  selectionStart (setSelectionRange a b t) = a
  /\ selectionEnd (setSelectionRange a b t) = b.
Proof.
  intros Hab Hb. unfold setSelectionRange.
  rewrite !Nat.min_l by lia.
  destruct (Nat.leb_spec b a); cbn; split; lia.
Qed.

Lemma fireTimer_value (t : Textarea) (cb : Timer) :
  value (fireTimer t cb) = value t.
Proof. unfold fireTimer. now rewrite setSelectionRange_value. Qed.

Lemma fireTimers_value (l : list Timer) (t : Textarea) :
  value (fold_left fireTimer l t) = value t.
Proof.
  revert t. induction l as [| cb l IH]; intros t; cbn; trivial.
  now rewrite IH, fireTimer_value.
Qed.

Lemma syncTextarea_value (b : jsstring) (t : Textarea) :
  value (syncTextarea b t) = b.
Proof.
  unfold syncTextarea, jsstring_eqb.
  destruct (list_eq_dec N.eq_dec (value t) b); [assumption | reflexivity].
Qed.

(** ** The text-wrap helper *)

Section WrapText.

Variables before after defaultText : jsstring.
Variable w : World.

(** With the textarea mounted the helper ends normally, writes the body
    cell and queues the selection callback. *)
Lemma wrapText_mounted (t : Textarea) :
  textareaRef w = Some t ->
  wrapText before after defaultText w =
    (Normal tt,
     mkWorld
       (with_body (newText (wrapCompute t before after defaultText))
          (editor w))
       (Some t)
       (timers w
        ++ [mkTimer (rangeStart (wrapCompute t before after defaultText))
              (rangeEnd (wrapCompute t before after defaultText))])
       ((trace w
         ++ [ESetBody (newText (wrapCompute t before after defaultText))])
        ++ [ESetTimeout 0])).
Proof.
  intros H. unfold wrapText, currentTextarea, bind. rewrite H.
  cbn. now rewrite H.
Qed.

(** With the ref unset it throws before touching anything. *)
Lemma wrapText_unmounted :
  textareaRef w = None ->
  exists e, wrapText before after defaultText w = (Abrupt e, w).
Proof.
  intros H. unfold wrapText, currentTextarea, bind. rewrite H.
  eexists; reflexivity.
Qed.

End WrapText.

(** The buffer computed from a selection inside the text. *)
Lemma wrapCompute_newText (text : jsstring) (start_ end_ : nat) (foc : bool)
    (prefix suffix fallback : jsstring) :
  start_ <= end_ -> end_ <= length text ->
  newText (wrapCompute (mkTextarea text start_ end_ foc) prefix suffix fallback)
  = slice text 0 start_ ++ prefix ++ selected_or start_ end_ text fallback
    ++ suffix ++ slice_from text end_.
Proof.
  intros Hse He. unfold wrapCompute.
  cbn [newText value selectionStart selectionEnd].
  rewrite substring_prefix, substring_suffix, selected_or_substring
    by assumption.
  unfold slice, slice_from. cbn [skipn]. now rewrite Nat.sub_0_r.
Qed.

(** C1: for offsets with [0 <= start <= end <= length text], the helper
    leaves in the body cell the buffer
    [text[0:start] + prefix + (text[start:end], or the fallback when the
    selection is empty) + suffix + text[end:]]. *)
Theorem wrapText_new_buffer (text prefix suffix fallback : jsstring)
    (start_ end_ : nat) (foc : bool) (w : World) :
  start_ <= end_ -> end_ <= length text ->
  textareaRef w = Some (mkTextarea text start_ end_ foc) ->
  body (editor (snd (wrapText prefix suffix fallback w)))
  = slice text 0 start_ ++ prefix ++ selected_or start_ end_ text fallback
    ++ suffix ++ slice_from text end_.
Proof.
  intros Hse He Hw.
  rewrite (wrapText_mounted prefix suffix fallback w Hw).
  cbn [snd editor body with_body].
  now apply wrapCompute_newText.
Qed.

(** The first example of the specification: bold around "world". *)
Lemma wrapText_new_buffer_witness :
  body (editor (snd (wrapText (lit "**") (lit "**") (lit "bold text")
    helloWorld)))
  = lit "hello **world**".
Proof.
  etransitivity.
  - apply (@wrapText_new_buffer (lit "hello world") (lit "**") (lit "**")
             (lit "bold text") 6 11 false).
    + repeat constructor.
    + vm_compute. constructor.
    + reflexivity.
  - reflexivity.
Defined.

Lemma focus_value (t : Textarea) : value (focus t) = value t.
Proof. reflexivity. Qed.

(** Firing a callback whose range lies inside the control selects exactly
    that range. *)
Lemma fireTimer_within (t : Textarea) (a b : nat) :
  a <= b -> b <= length (value t) ->
  selectionStart (fireTimer t (mkTimer a b)) = a
  /\ selectionEnd (fireTimer t (mkTimer a b)) = b.
Proof.
  intros Hab Hb. unfold fireTimer. cbn [selFrom selTo].
  apply setSelectionRange_within; [assumption | now rewrite focus_value].
Qed.

(** C5: for selection offsets [start <= end], the range handed to the
    deferred [setSelectionRange] starts at [start + length prefix] and ends
    [length (selected-or-fallback text)] later; once the new buffer is
    rendered and the callback has run (with [start] inside the buffer) the
    control's selection is that range, it covers exactly the selected or
    inserted text, and it sits immediately after the prefix. *)
Theorem wrapText_selection_range (text prefix suffix fallback : jsstring)
    (start_ end_ : nat) (foc : bool) (w : World) :
  start_ <= end_ ->
  textareaRef w = Some (mkTextarea text start_ end_ foc) ->
  let sel := or_else (slice text start_ end_) fallback in
  let w' := snd (wrapText prefix suffix fallback w) in
  timers w' =
    timers w ++ [mkTimer (start_ + length prefix)
                   (start_ + length prefix + length sel)]
  /\ (start_ <= length text ->
      exists t',
        textareaRef (settle w') = Some t'
        /\ value t' = body (editor w')
        /\ selectionStart t' = start_ + length prefix
        /\ selectionEnd t' = start_ + length prefix + length sel
        /\ selectedRange t' = sel
        /\ substring (value t') start_ (selectionStart t') = prefix).
Proof.
  intros Hse Hw sel w'. subst w'.
  rewrite (wrapText_mounted prefix suffix fallback w Hw).
  unfold wrapCompute.
  cbn [snd timers editor body with_body newText rangeStart rangeEnd
       selectedText value selectionStart selectionEnd].
  rewrite (substring_ordered text Hse). fold sel.
  split; [reflexivity |].
  intros Hs.
  rewrite substring_prefix, substring_suffix.
  set (new := firstn start_ text ++ prefix ++ sel ++ suffix ++ skipn end_ text).
  unfold settle.
  cbn [textareaRef editor body with_body timers option_map].
  rewrite fold_left_app. cbn [fold_left].
  set (T := fold_left fireTimer (timers w) _).
  assert (HT : value T = new)
    by (unfold T; now rewrite fireTimers_value, syncTextarea_value).
  assert (Hpre : length (firstn start_ text) = start_)
    by (rewrite length_firstn; lia).
  assert (Hlen : start_ + length prefix + length sel <= length (value T)).
  { rewrite HT. unfold new. rewrite !length_app, Hpre. lia. }
  destruct (@fireTimer_within T (start_ + length prefix)
              (start_ + length prefix + length sel)) as [Ha Hb];
    [lia | exact Hlen |].
  eexists. split; [reflexivity |].
  unfold selectedRange. rewrite Ha, Hb, fireTimer_value, HT.
  repeat split.
  - unfold new. rewrite app_assoc.
    replace (start_ + length prefix)
      with (length (firstn start_ text ++ prefix))
      by (rewrite length_app; lia).
    apply substring_middle.
  - unfold new.
    replace (substring _ start_ (start_ + length prefix))
      with (substring (firstn start_ text ++ prefix ++ sel ++ suffix
                         ++ skipn end_ text)
              (length (firstn start_ text))
              (length (firstn start_ text) + length prefix))
      by (now rewrite Hpre).
    apply substring_middle.
Qed.

(** The first example of the specification: the new selection covers
    "world". *)
Lemma wrapText_selection_range_witness :
  exists t',
    textareaRef (settle (snd (wrapText (lit "**") (lit "**") (lit "bold text")
      helloWorld)))
    = Some t'
    /\ selectionStart t' = 8 /\ selectionEnd t' = 13
    /\ selectedRange t' = lit "world".
Proof.
  destruct (@wrapText_selection_range (lit "hello world") (lit "**") (lit "**")
              (lit "bold text") 6 11 false
              helloWorld)
    as [_ H].
  - repeat constructor.
  - reflexivity.
  - destruct H as (t' & Ht & _ & Ha & Hb & Hsel & _).
    + vm_compute. repeat constructor.
    + exists t'. repeat split; assumption.
Defined.

(** C8: with the selection at a boundary of the buffer ([start = 0], or
    [end = length text], or both, the empty buffer included) the helper
    ends normally: the slice before or after the selection is the empty
    string, and the body cell holds the buffer of the formula. *)
Theorem wrapText_at_boundaries (text prefix suffix fallback : jsstring)
    (start_ end_ : nat) (foc : bool) (w : World) :
  start_ <= end_ -> end_ <= length text ->
  start_ = 0 \/ end_ = length text ->
  textareaRef w = Some (mkTextarea text start_ end_ foc) ->
  fst (wrapText prefix suffix fallback w) = Normal tt
  /\ (start_ = 0 -> substring text 0 start_ = [])
  /\ (end_ = length text -> substring_from text end_ = [])
  /\ body (editor (snd (wrapText prefix suffix fallback w)))
     = slice text 0 start_ ++ prefix ++ selected_or start_ end_ text fallback
       ++ suffix ++ slice_from text end_.
Proof.
  intros Hse He _ Hw.
  rewrite (wrapText_mounted prefix suffix fallback w Hw).
  cbn [fst snd editor body with_body].
  repeat split.
  - intros ->. now rewrite substring_prefix.
  - intros ->. rewrite substring_suffix. apply skipn_all.
  - now apply wrapCompute_newText.
Qed.

(** The second example of the specification: a heading in the empty
    buffer. *)
Lemma wrapText_at_boundaries_witness :
  fst (wrapText (lit "## ") [10%N] (lit "Heading 2")
         emptyBuffer)
  = Normal tt
  /\ body (editor (snd (wrapText (lit "## ") [10%N] (lit "Heading 2")
       emptyBuffer)))
     = lit "## Heading 2" ++ [10%N].
Proof.
  destruct (@wrapText_at_boundaries [] (lit "## ") [10%N] (lit "Heading 2")
              0 0 false
              emptyBuffer)
    as (Hn & _ & _ & Hb).
  - constructor.
  - constructor.
  - left; reflexivity.
  - reflexivity.
  - split; [exact Hn |]. etransitivity; [exact Hb | reflexivity].
Defined.

(** C9: an invocation of the wrap helper writes no cell but the body:
    title, media, category, status and error message (and the three
    flags) are as before, whether it ends normally or throws. *)
Theorem wrapText_frame (before after defaultText : jsstring) (w : World) :
  let e := editor w in
  let e' := editor (snd (wrapText before after defaultText w)) in
  title e' = title e /\ media e' = media e /\ category e' = category e
  /\ status e' = status e /\ error e' = error e
  /\ mediaLoading e' = mediaLoading e
  /\ isDropdownOpen e' = isDropdownOpen e
  /\ isAILoading e' = isAILoading e.
Proof.
  destruct (textareaRef w) as [t |] eqn:Hw.
  - rewrite (wrapText_mounted before after defaultText w Hw).
    cbn. repeat split.
  - destruct (wrapText_unmounted before after defaultText w Hw) as [e ->].
    cbn. repeat split.
Qed.

(** ** Running handlers *)

Lemma skipn_app_exact {A} (l r : list A) : skipn (length l) (l ++ r) = r.
Proof. rewrite skipn_app, skipn_all, Nat.sub_diag. reflexivity. Qed.

(** Run a handler on a world given by its parts: the monad, the handlers
    and the cells are computed away; strings, the answers of the
    surroundings and the logs stay as they are. *)
Ltac exec :=
  cbv beta iota zeta delta
    [step settle dispatch perform updateArticle generatePostWithAI
     addImage addLink addCodeBlock addHeading3 addHeading2
     addItalic addBold wrapText resetForm handleClickOutside userInput
     userSelect currentTextarea refusedWith
     setTitle setBody setMedia setMediaLoading setCategory setStatus
     setIsDropdownOpen setIsAILoading setError sleep consoleError setTimeout
     await readMessage tryCatch tryFinally throw emit modify snapshot bind ret
     editor textareaRef timers trace fst snd option_map
     with_title with_body with_media with_mediaLoading with_category
     with_status with_isDropdownOpen with_isAILoading with_error
     title body media mediaLoading category status isDropdownOpen isAILoading
     error negb].

(** Name the parts of a world. *)
Ltac open_world w :=
  destruct w as [[? ? ? ? ? ? ? ? ?] ? ? ?];
  cbn [editor title body media mediaLoading category status isDropdownOpen
       isAILoading error textareaRef timers trace] in *.

(** Logs that only hold console output change nothing that is counted. *)
Section ConsoleOnly.

Variable tail : list Event.
Hypothesis Htail : forallb consoleEvent tail = true.

Lemma consoleOnly_statusWrites : statusWrites tail = [].
Proof.
  induction tail as [| ev l IH]; trivial.
  cbn in Htail. apply andb_true_iff in Htail as [Hev Hl].
  destruct ev; try discriminate Hev. cbn. now apply IH.
Qed.

Lemma consoleOnly_awardRequest : filter awardRequest tail = [].
Proof.
  induction tail as [| ev l IH]; trivial.
  cbn in Htail. apply andb_true_iff in Htail as [Hev Hl].
  destruct ev; try discriminate Hev. cbn. now apply IH.
Qed.

Lemma consoleOnly_cellWrite : filter cellWrite tail = [].
Proof.
  induction tail as [| ev l IH]; trivial.
  cbn in Htail. apply andb_true_iff in Htail as [Hev Hl].
  destruct ev; try discriminate Hev. cbn. now apply IH.
Qed.

End ConsoleOnly.

(** [awardPoints] never throws and touches nothing: it issues its one
    request and may write to the console. *)
Lemma awardPoints_run (env : Env) (d : jsstring) (points : N) (w : World) :
  exists r tail,
    forallb consoleEvent tail = true
    /\ awardPoints env d points w
       = (Normal r,
          mkWorld (editor w) (textareaRef w) (timers w)
            ((trace w ++ [EFetchAwardPoints d points]) ++ tail)).
Proof.
  open_world w. unfold awardPoints. exec.
  destruct (fetchAwardPoints env d points) as [[[|] [j | err]] | err];
    cbn [ok json]; cbv beta iota.
  1: exists (Some j), []; rewrite app_nil_r; split; reflexivity.
  all: do 2 eexists; split; [| reflexivity]; reflexivity.
Qed.

(** Split on every outcome the goal still branches on, innermost first;
    a run of [awardPoints] is replaced by its effect. *)
Ltac split_outcomes :=
  repeat match goal with
    | |- context [awardPoints ?env ?d ?p ?W] =>
        let r := fresh "r" in
        let tail := fresh "tail" in
        let Htail := fresh "Htail" in
        let Heq := fresh "Heq" in
        destruct (awardPoints_run env d p W) as (r & tail & Htail & Heq);
        rewrite Heq; clear Heq; exec
    | |- context [match ?x with _ => _ end] =>
        lazymatch x with
        | context [match _ with _ => _ end] => fail
        | context [awardPoints] => fail
        | _ => destruct x eqn:?; cbv beta iota
        end
    end.

(** Read the events added to a log of the form [(old ++ [a]) ++ [b] ...]. *)
Ltac read_log :=
  unfold since; cbn [trace]; rewrite <- ?app_assoc; cbn [app];
  rewrite ?skipn_app_exact, ?skipn_all;
  unfold statusWrites;
  repeat (cbn [flat_map filter statusWrite awardRequest cellWrite app];
          rewrite ?flat_map_app, ?filter_app);
  fold statusWrites.

Lemma valid_checks (e : Editor) :
  valid e = true ->
  falsy (category e) = false
  /\ falsy (trim (title e)) = false /\ falsy (trim (body e)) = false.
Proof.
  unfold valid. rewrite !falsy_trim, !andb_true_iff, !negb_true_iff. tauto.
Qed.

(** ** Validation before submission *)

(** C2, as stated, fails: with a whitespace-only title the Post button is
    enabled; and an editor opened on a post whose context is a single space
    has the button enabled, and a click sends the edit. *)
Lemma post_disabled_counterexample :
  (blank (title blankTitleDraft) = true
   /\ postDisabled blankTitleDraft = false)
  /\ (let props := mkProps (Some blankContextPost) None in
      let w := mount props in
      blank (category (editor w)) = true
      /\ postDisabled (editor w) = false
      /\ existsb submitCall (trace (snd (dispatch quietEnv props ClickPost w)))
         = true).
Proof. vm_compute. repeat split. Qed.

Section Validation.

Variable env : Env.
Variable props : Props.
Variable w : World.

Lemma updateArticle_no_category :
  falsy (category (editor w)) = true ->
  updateArticle env props w = refusedWith w (lit "Please select a category").
Proof.
  intros H. unfold updateArticle, bind at 1, snapshot. rewrite H.
  reflexivity.
Qed.

Lemma updateArticle_no_title :
  falsy (category (editor w)) = false -> blank (title (editor w)) = true ->
  updateArticle env props w = refusedWith w (lit "Please enter a title").
Proof.
  intros Hc H. unfold updateArticle, bind at 1, snapshot.
  rewrite Hc, falsy_trim, H. reflexivity.
Qed.

Lemma updateArticle_no_body :
  falsy (category (editor w)) = false -> blank (title (editor w)) = false ->
  blank (body (editor w)) = true ->
  updateArticle env props w = refusedWith w (lit "Please enter content").
Proof.
  intros Hc Ht H. unfold updateArticle, bind at 1, snapshot.
  rewrite Hc, !falsy_trim, Ht, H. reflexivity.
Qed.

Lemma updateArticle_refused :
  valid (editor w) = false ->
  exists msg,
    falsy msg = false /\ updateArticle env props w = refusedWith w msg.
Proof.
  unfold valid. intros H.
  destruct (falsy (category (editor w))) eqn:Hc.
  { eexists; split; [| now apply updateArticle_no_category]. reflexivity. }
  destruct (blank (title (editor w))) eqn:Ht.
  { eexists; split; [| now apply updateArticle_no_title]. reflexivity. }
  destruct (blank (body (editor w))) eqn:Hb; [| discriminate H].
  eexists; split; [| now apply updateArticle_no_body]. reflexivity.
Qed.

(** C2, amended: the Post button is disabled whenever category, title or
    body is the empty string; and a submission whose category is empty, or
    whose title or body is empty or whitespace-only, is refused by the
    handler, which only sets a non-empty error message: no call is made
    and no other cell changes. *)
Theorem post_requires_fields :
  (falsy (category (editor w)) || falsy (title (editor w))
   || falsy (body (editor w)) = true ->
   postDisabled (editor w) = true)
  /\ (falsy (category (editor w)) || blank (title (editor w))
      || blank (body (editor w)) = true ->
      exists msg,
        falsy msg = false /\ updateArticle env props w = refusedWith w msg).
Proof.
  split.
  - intros H. unfold postDisabled. now rewrite H.
  - intros H. apply updateArticle_refused. unfold valid.
    destruct (falsy (category (editor w))); [reflexivity |].
    destruct (blank (title (editor w))); [reflexivity |].
    cbn in H |- *. now rewrite H.
Qed.

End Validation.

Lemma post_requires_fields_witness :
  let w := mkWorld blankTitleDraft None [] [] in
  exists msg,
    falsy msg = false
    /\ updateArticle quietEnv newPost w = refusedWith w msg.
Proof.
  intros w.
  apply (proj2 (post_requires_fields quietEnv newPost w)).
  reflexivity.
Defined.

(** ** Submission *)

(** Pass the three checks and wait for the client's answer. *)
Ltac submit Hc Ht Hb :=
  exec; rewrite ?Hc, ?Ht, ?Hb; cbv beta iota.

Section Submitted.

Variable env : Env.
Variable props : Props.
Variable res : PostRes.

(** C4: after a submission answered with status 200 the draft fields
    title, body, media and category hold their empty values. *)
Theorem success_clears_draft (w : World) :
  valid (editor w) = true ->
  submission env props (editor w) = Resolves res ->
  res_status res = 200 ->
  let e' := editor (snd (updateArticle env props w)) in
  title e' = [] /\ body e' = [] /\ media e' = [] /\ category e' = [].
Proof.
  intros Hvalid Hres H200.
  destruct (valid_checks _ Hvalid) as (Hc & Ht & Hb).
  unfold submission, contentOf in Hres.
  open_world w. submit Hc Ht Hb.
  destruct (post props) as [p |]; rewrite Hres; cbv beta iota;
    rewrite H200, Nat.eqb_refl; cbv beta iota;
    split_outcomes; repeat split.
Qed.

End Submitted.

Lemma success_clears_draft_witness :
  let e' := editor (snd (updateArticle quietEnv newPost filledDraft)) in
  title e' = [] /\ body e' = [] /\ media e' = [] /\ category e' = [].
Proof.
  apply (@success_clears_draft quietEnv newPost (mkPostRes 200 [])
           filledDraft); reflexivity.
Defined.

Section Created.

Variable env : Env.
Variable props : Props.
Variable u : User.
Variable res : PostRes.

Hypothesis Hnew : post props = None.
Hypothesis Huser : user env = Some u.
Hypothesis H200 : res_status res = 200.

(** C3: when a submission that creates a post (no existing post, a
    connected user) is answered with status 200, the points endpoint is
    requested exactly once, with the user's [did] and the configured
    value for post creation; the status is set to submitting and then to
    success; and whatever the points endpoint does, the cells written and
    the state shown are the same. *)
Theorem creation_awards_points_once (w : World) :
  valid (editor w) = true ->
  createPost env (contentOf (editor w)) = Resolves res ->
  let w' := snd (updateArticle env props w) in
  filter awardRequest (since w w')
  = [EFetchAwardPoints (did u) (CREATE_POST env)]
  /\ (exists rest, statusWrites (since w w') = 1 :: 2 :: rest)
  /\ forall f,
       let w'' := snd (updateArticle (with_fetchAwardPoints f env) props w) in
       editor w'' = editor w'
       /\ filter cellWrite (since w w'') = filter cellWrite (since w w').
Proof.
  intros Hvalid Hres.
  destruct (valid_checks _ Hvalid) as (Hc & Ht & Hb).
  unfold contentOf in Hres.
  open_world w. cbv zeta. split; [| split; [| intros f; split]].
  all: submit Hc Ht Hb.
  all: unfold with_fetchAwardPoints;
    cbn [user createPost CREATE_POST pathname routerReplace].
  all: rewrite Hnew, Huser, Hres; cbv beta iota;
    rewrite H200, Nat.eqb_refl; cbv beta iota.
  all: split_outcomes; read_log;
    rewrite ?consoleOnly_awardRequest, ?consoleOnly_statusWrites,
      ?consoleOnly_cellWrite by assumption;
    try reflexivity.
  all: eexists; reflexivity.
Qed.

End Created.

Lemma creation_awards_points_once_witness :
  let w' := snd (updateArticle pointsDownEnv newPost filledDraft) in
  filter awardRequest (since filledDraft w')
  = [EFetchAwardPoints (lit "did:pkh:alice") 10%N]
  /\ status (editor w') = 2.
Proof.
  split.
  - exact (proj1 (@creation_awards_points_once pointsDownEnv newPost alice
                    (mkPostRes 200 []) eq_refl eq_refl eq_refl filledDraft
                    eq_refl eq_refl)).
  - reflexivity.
Defined.

(** ** Image upload *)

Section AddImage.

Variable env : Env.

(** C7: when the upload call of an image fails (status other than 200, or
    an exception), the handler sets a non-empty error message and leaves
    the rest of the draft alone: nothing is appended to media, the body
    (and the textarea, and the pending callbacks) are untouched, the only
    cells written are the loading flag and the error, and the Post button
    is as enabled as before. *)
Theorem failed_upload_sets_error (f : File) (w : World) :
  startsWith (lit "image/") (fileType f) = true ->
  uploadFailed (uploadMedia env f) = true ->
  let e := editor w in
  let w' := snd (addImage env (Some f) w) in
  exists msg,
    falsy msg = false
    /\ editor w' = with_mediaLoading false (with_error msg e)
    /\ media (editor w') = media e
    /\ body (editor w') = body e
    /\ textareaRef w' = textareaRef w
    /\ timers w' = timers w
    /\ since w w' = [ESetMediaLoading true; EUploadMedia f; ESetError msg;
                     ESetMediaLoading false]
    /\ postDisabled (editor w') = postDisabled e
    /\ valid (editor w') = valid e.
Proof.
  intros Himg Hfail. open_world w. exec. rewrite Himg. cbv beta iota.
  destruct (uploadMedia env f) as [r | err]; cbn [uploadFailed] in Hfail;
    cbv beta iota.
  - apply negb_true_iff in Hfail. rewrite Hfail. cbv beta iota.
    exists (lit "Error uploading image. Please try again.").
    repeat split. read_log. reflexivity.
  - exists (lit "Failed to upload image. Please try again.").
    repeat split. read_log. reflexivity.
Qed.

(** C10: when no file is provided, or its type does not start with
    [image/], the handler raises and clears the loading flag and does
    nothing else: no upload call, no error message, and every other cell
    (media and body among them) as before. *)
Theorem rejected_file_changes_nothing (file : option File) (w : World) :
  file = None
  \/ (exists f, file = Some f
                /\ startsWith (lit "image/") (fileType f) = false) ->
  let e := editor w in
  let w' := snd (addImage env file w) in
  fst (addImage env file w) = Normal tt
  /\ since w w' = [ESetMediaLoading true; ESetMediaLoading false]
  /\ editor w' = with_mediaLoading false e
  /\ error (editor w') = error e
  /\ media (editor w') = media e
  /\ body (editor w') = body e
  /\ textareaRef w' = textareaRef w
  /\ timers w' = timers w.
Proof.
  intros [-> | (f & -> & Hf)]; open_world w; exec; rewrite ?Hf;
    cbv beta iota; repeat split; read_log; reflexivity.
Qed.

End AddImage.

Lemma failed_upload_sets_error_witness :
  let w' := snd (addImage refusingEnv (Some pngFile) filledDraft) in
  exists msg,
    falsy msg = false
    /\ error (editor w') = msg
    /\ media (editor w') = []
    /\ body (editor w') = lit "text".
Proof.
  destruct (@failed_upload_sets_error refusingEnv pngFile filledDraft)
    as (msg & Hmsg & He & Hm & Hb & _); [reflexivity | reflexivity |].
  exists msg. split; [exact Hmsg |]. split; [| split].
  - exact (f_equal error He).
  - exact Hm.
  - exact Hb.
Defined.

Lemma rejected_file_changes_nothing_witness :
  let w' := snd (addImage refusingEnv (Some pdfFile) filledDraft) in
  since filledDraft w' = [ESetMediaLoading true; ESetMediaLoading false]
  /\ editor w' = editor filledDraft.
Proof.
  destruct (@rejected_file_changes_nothing refusingEnv (Some pdfFile)
              filledDraft) as (_ & Hl & He & _).
  - right. exists pdfFile. split; reflexivity.
  - split; [exact Hl | exact He].
Defined.

(** ** The submission status *)


Section Status.

Variable env : Env.
Variable props : Props.






End Status.



(** * Further properties *)

(** ** Trimming *)

Lemma trimStart_suffix (s : jsstring) :
  exists l, s = l ++ trimStart s /\ blank l = true.
Proof.
  induction s as [| c r (l & Hl & Hb)]; [now exists [] |].
  cbn [trimStart]. destruct (isWhiteSpace c) eqn:Hc.
  - exists (c :: l). split; [cbn [app]; now rewrite <- Hl |].
    unfold blank in *. cbn [forallb]. now rewrite Hc.
  - now exists [].
Qed.

Lemma trimStart_head (s : jsstring) (c : N) (r : jsstring) :
  trimStart s = c :: r -> isWhiteSpace c = false.
Proof.
  induction s as [| a s IH]; cbn [trimStart]; [discriminate |].
  destruct (isWhiteSpace a) eqn:Ha; [exact IH |].
  intros H. injection H as -> _. exact Ha.
Qed.

Lemma trimStart_fixed (s : jsstring) :
  match s with [] => True | c :: _ => isWhiteSpace c = false end ->
  trimStart s = s.
Proof. destruct s as [| c r]; cbn; [trivial | now intros ->]. Qed.

Lemma trim_split (s : jsstring) :
  exists l r, s = l ++ trim s ++ r /\ blank l = true /\ blank r = true.
Proof.
  unfold trim, trimEnd.
  destruct (trimStart_suffix s) as (l & Hl & Hbl).
  destruct (trimStart_suffix (rev (trimStart s))) as (r & Hr & Hbr).
  exists l, (rev r). repeat split; trivial.
  - rewrite <- rev_app_distr, <- Hr, rev_involutive. exact Hl.
  - now rewrite blank_rev.
Qed.

Lemma last_app_cons {A} (l : list A) (a d : A) (r : list A) :
  last (l ++ a :: r) d = last (a :: r) d.
Proof.
  induction l as [| x l IH]; trivial.
  cbn [app]. destruct (l ++ a :: r) eqn:E.
  - now destruct l.
  - rewrite <- IH. reflexivity.
Qed.

Lemma last_rev_cons {A} (a d : A) (r : list A) : last (rev (a :: r)) d = a.
Proof. cbn [rev]. apply last_last. Qed.

Lemma hd_rev {A} (l : list A) (d : A) : hd d (rev l) = last l d.
Proof.
  induction l as [| a l IH] using rev_ind; trivial.
  rewrite rev_app_distr, last_last. reflexivity.
Qed.

(** What [trim] returns has no whitespace at either end. *)
Lemma trim_edgesClean (s : jsstring) : edgesClean (trim s) = true.
Proof.
  unfold trim, trimEnd.
  set (u := trimStart s).
  destruct (trimStart (rev u)) as [| c v] eqn:Hv; [reflexivity |].
  pose proof (trimStart_head _ Hv) as Hc.
  (* the last unit of [c :: v] is the last of [rev u], the head of [u] *)
  destruct (trimStart_suffix (rev u)) as (l & Hl & _). rewrite Hv in Hl.
  assert (Hlast : forall d, last (c :: v) d = hd d u).
  { intros d. rewrite <- (last_app_cons l c d v), <- Hl.
    rewrite <- (rev_involutive u) at 2. now rewrite hd_rev. }
  assert (Hu : exists a t, u = a :: t).
  { destruct u as [| a t]; [destruct l; discriminate Hl | eauto]. }
  destruct Hu as (a & t & Hu).
  assert (Ha : isWhiteSpace a = false)
    by (apply (trimStart_head s (r := t)); exact Hu).
  unfold edgesClean.
  destruct (rev (c :: v)) as [| b w] eqn:Hb.
  { reflexivity. }
  assert (Hbh : b = a).
  { change b with (hd b (b :: w)). rewrite <- Hb, hd_rev, Hlast, Hu.
    reflexivity. }
  assert (Hbl : last (b :: w) b = c).
  { rewrite <- Hb. apply last_rev_cons. }
  rewrite Hbl, Hbh, Ha, Hc. reflexivity.
Qed.

Lemma edgesClean_trim (s : jsstring) : edgesClean s = true -> trim s = s.
Proof.
  destruct s as [| c r]; [reflexivity |].
  unfold edgesClean. rewrite andb_true_iff, !negb_true_iff.
  intros [Hc Hl]. unfold trim, trimEnd.
  rewrite (trimStart_fixed (c :: r)) by exact Hc.
  rewrite trimStart_fixed; [apply rev_involutive |].
  destruct (rev (c :: r)) as [| b w] eqn:Hb; [trivial |].
  assert (b = last (c :: r) c) as ->; [| exact Hl].
  change b with (hd c (b :: w)). rewrite <- Hb. apply hd_rev.
Qed.

(** Trimming twice is trimming once. *)
Lemma trim_idempotent (s : jsstring) : trim (trim s) = trim s.
Proof. apply edgesClean_trim, trim_edgesClean. Qed.

(** ** More on submission *)

Lemma consoleOnly_filter (p : Event -> bool) (tail : list Event) :
  (forall l, p (EConsoleError l) = false) ->
  forallb consoleEvent tail = true -> filter p tail = [].
Proof.
  intros Hp. induction tail as [| ev l IH]; trivial.
  cbn [forallb]. rewrite andb_true_iff. intros [Hev Hl].
  destruct ev; try discriminate Hev. cbn [filter]. rewrite Hp. now apply IH.
Qed.

(** Unfold what the statements say about the answers of the surroundings. *)
Ltac exec_spec :=
  cbv beta iota zeta delta
    [submissionFailed submissionAccepted valueless submission submitEvent
     contentOf followUpError followUpCompletes callbackCompletes onHomePage
     failureMessage uploadFailed];
  exec; cbn [andb orb].

(** Read the calls of one kind out of the events added to a log. *)
Ltac read_calls :=
  unfold since; cbn [trace]; rewrite <- ?app_assoc; cbn [app];
  rewrite ?skipn_app_exact, ?skipn_all;
  unfold statusWrites;
  repeat (cbn [flat_map filter statusWrite awardRequest cellWrite submitCall
               uploadCall generateCall redirectCall app];
          rewrite ?flat_map_app, ?filter_app);
  fold statusWrites;
  rewrite ?consoleOnly_statusWrites by assumption;
  rewrite ?(@consoleOnly_filter awardRequest) by (assumption || reflexivity);
  rewrite ?(@consoleOnly_filter submitCall) by (assumption || reflexivity);
  rewrite ?(@consoleOnly_filter redirectCall) by (assumption || reflexivity);
  cbn [app].

(** A premise of the goal has become false. *)
Ltac absurd_premise :=
  solve [intros; match goal with H : _ = _ |- _ => discriminate H end].

(** Split on every outcome, computing the conditions of the statement on
    the way and leaving the cases its premises exclude. *)
Ltac split_cases :=
  repeat (cbn [andb orb];
          match goal with
          | |- context [awardPoints ?env ?d ?p ?W] =>
              let r := fresh "r" in
              let tail := fresh "tail" in
              let Htail := fresh "Htail" in
              let Heq := fresh "Heq" in
              destruct (awardPoints_run env d p W)
                as (r & tail & Htail & Heq);
              rewrite Heq; clear Heq; exec
          | |- context [match ?x with _ => _ end] =>
              lazymatch x with
              | context [match _ with _ => _ end] => fail
              | context [awardPoints] => fail
              | context [andb] => fail
              | context [orb] => fail
              | _ =>
                  destruct x eqn:?; cbv beta iota; try absurd_premise
              end
          end);
  cbn [andb orb].

Ltac only_tt := repeat match goal with u : unit |- _ => destruct u end.

(** Run [updateArticle] on a draft that passes the checks, through every
    answer of the surroundings. *)
Ltac run_valid w Hv :=
  let Hc := fresh "Hc" in
  let Ht := fresh "Ht" in
  let Hb := fresh "Hb" in
  destruct (valid_checks _ Hv) as (Hc & Ht & Hb);
  open_world w; exec_spec; rewrite ?Hc, ?Ht, ?Hb; cbv beta iota;
  split_cases; only_tt.

Lemma or_else_truthy (a b : jsstring) :
  falsy b = false -> falsy (or_else a b) = false.
Proof. unfold or_else. now destruct (falsy a) eqn:E. Qed.

Section MoreSubmission.

Variable env : Env.
Variable props : Props.

Lemma valid_draft_one_call (w : World) :
  valid (editor w) = true ->
  filter submitCall (since w (snd (updateArticle env props w)))
  = [submitEvent props (editor w)].
Proof. intros Hv. run_valid w Hv; read_calls; reflexivity. Qed.

(** X1: a draft that passes the checks is sent in exactly one call (an edit
    of the existing post, a creation otherwise), and what is sent as title
    and body is the cell's text without the whitespace around it: not
    empty, clean at both ends, and nothing else removed. *)
Theorem valid_draft_sent_trimmed (w : World) :
  valid (editor w) = true ->
  let e := editor w in
  let c := contentOf e in
  filter submitCall (since w (snd (updateArticle env props w)))
  = [submitEvent props e]
  /\ falsy (c_title c) = false /\ edgesClean (c_title c) = true
  /\ falsy (c_body c) = false /\ edgesClean (c_body c) = true
  /\ (exists l r,
        title e = l ++ c_title c ++ r /\ blank l = true /\ blank r = true)
  /\ (exists l r,
        body e = l ++ c_body c ++ r /\ blank l = true /\ blank r = true).
Proof.
  intros Hv. cbv zeta.
  destruct (valid_checks _ Hv) as (Hc & Ht & Hb).
  split; [now apply valid_draft_one_call |].
  unfold contentOf; cbn [c_title c_body].
  repeat split; auto using trim_edgesClean, trim_split.
Qed.

(** X2: a draft that fails a check is not sent, and the error shown names
    the first check that fails, in the order category, title, body; a
    whitespace-only title or body counts as missing. *)
Theorem refusal_names_first_missing_field (w : World) :
  valid (editor w) = false ->
  let w' := snd (updateArticle env props w) in
  error (editor w') = refusalMessage (editor w)
  /\ filter submitCall (since w w') = [].
Proof.
  intros H. cbv zeta. unfold valid in H. unfold refusalMessage.
  destruct (falsy (category (editor w))) eqn:Hc.
  { rewrite updateArticle_no_category by exact Hc.
    open_world w. exec. split; [| read_calls]; reflexivity. }
  destruct (blank (title (editor w))) eqn:Ht.
  { rewrite updateArticle_no_title by assumption.
    open_world w. exec. split; [| read_calls]; reflexivity. }
  destruct (blank (body (editor w))) eqn:Hb; [| discriminate H].
  rewrite updateArticle_no_body by assumption.
  open_world w. exec. split; [| read_calls]; reflexivity.
Qed.

(** X3: points are requested for a created post only: once when a valid
    draft of a new post by a connected user is answered with 200, and in
    no other case (an edit, no user, a refused draft, a failed call). *)
Theorem points_requested_iff_created (w : World) :
  filter awardRequest (since w (snd (updateArticle env props w)))
  = match post props, user env with
    | None, Some u =>
        if valid (editor w)
           && submissionAccepted (createPost env (contentOf (editor w)))
        then [EFetchAwardPoints (did u) (CREATE_POST env)]
        else []
    | _, _ => []
    end.
Proof.
  destruct (valid (editor w)) eqn:Hv.
  - run_valid w Hv; read_calls; reflexivity.
  - destruct (updateArticle_refused env props w Hv) as (msg & _ & ->).
    open_world w. exec. read_calls. now destruct (post props), (user env).
Qed.

(** X4: the redirect to the home page happens exactly when a valid draft
    was answered with 200, the parent's callback did not throw, and the
    page is not the home page already. *)
Theorem redirect_iff_posted_elsewhere (w : World) :
  filter redirectCall (since w (snd (updateArticle env props w)))
  = if valid (editor w)
       && submissionAccepted (submission env props (editor w))
       && callbackCompletes props && negb (onHomePage env)
    then [ERouterReplace (lit "/")]
    else [].
Proof.
  destruct (valid (editor w)) eqn:Hv.
  - run_valid w Hv; read_calls; reflexivity.
  - destruct (updateArticle_refused env props w Hv) as (msg & _ & ->).
    open_world w. exec. read_calls. reflexivity.
Qed.

(** X5: a failed create or edit call leaves the draft as it was, for a
    retry: title, body, media and category are untouched.  The error
    shown is the client's error text (or the exception's message), or
    "Failed to create post" when that is empty; so, unless the call was
    rejected with [undefined] or [null], an error is shown and the
    handler ends normally. *)
Theorem failed_submission_keeps_draft (w : World) :
  valid (editor w) = true ->
  submissionFailed (submission env props (editor w)) = true ->
  let e := editor w in
  let e' := editor (snd (updateArticle env props w)) in
  title e' = title e /\ body e' = body e /\ media e' = media e
  /\ category e' = category e
  /\ error e' = failureMessage (submission env props e)
  /\ (valueless (submission env props e) = false ->
      falsy (error e') = false
      /\ fst (updateArticle env props w) = Normal tt).
Proof.
  intros Hv Hf. cbv zeta. revert Hf.
  run_valid w Hv; intros Hf; try discriminate Hf;
    repeat (split; [reflexivity |]);
    intros Hn; try discriminate Hn;
    (split; [repeat apply or_else_truthy |]); reflexivity.
Qed.

(** X6: after a call answered with 200 the Post button is disabled and the
    emptied draft would be refused; when the follow-up completes the
    handler ends normally in the success status with no error shown. *)
Theorem success_disables_post (w : World) :
  valid (editor w) = true ->
  submissionAccepted (submission env props (editor w)) = true ->
  let w' := snd (updateArticle env props w) in
  postDisabled (editor w') = true
  /\ valid (editor w') = false
  /\ (followUpError env props = None ->
      fst (updateArticle env props w) = Normal tt
      /\ status (editor w') = 2 /\ error (editor w') = []).
Proof.
  intros Hv Hf. cbv zeta. revert Hf.
  run_valid w Hv; intros Hf; try discriminate Hf;
    repeat split; intros; try discriminate; reflexivity.
Qed.

(** X7: when the call was answered with 200 but the follow-up throws a
    value that is not [undefined] or [null] (in the parent's callback, or
    in the redirect), the failure path runs after the success path: the
    status goes submitting, success, error, idle; the draft is already
    cleared; and the error shown is the exception's message, or "Failed
    to create post". *)
Theorem follow_up_failure_after_success (w : World) (m : jsstring) :
  valid (editor w) = true ->
  submissionAccepted (submission env props (editor w)) = true ->
  followUpError env props = Some (mkError m) ->
  let w' := snd (updateArticle env props w) in
  statusWrites (since w w') = [1; 2; 3; 0]
  /\ status (editor w') = 0
  /\ title (editor w') = [] /\ body (editor w') = []
  /\ media (editor w') = [] /\ category (editor w') = []
  /\ error (editor w') = or_else m (lit "Failed to create post")
  /\ fst (updateArticle env props w) = Normal tt.
Proof.
  intros Hv Hf He. cbv zeta. revert Hf He.
  run_valid w Hv; intros Hf He; try discriminate Hf; try discriminate He;
    injection He as <-;
    (split; [read_calls; reflexivity | repeat split]).
Qed.

(** X22: when the create or edit call of a valid draft is rejected with
    [undefined] or [null], the catch block itself throws on reading the
    message: the handler ends by that exception, the status stays
    submitting (so the Post button stays disabled), no error is shown,
    and the draft is as it was. *)
Theorem valueless_rejection_leaves_submitting (w : World) :
  valid (editor w) = true ->
  valueless (submission env props (editor w)) = true ->
  let e := editor w in
  let w' := snd (updateArticle env props w) in
  (exists err, fst (updateArticle env props w) = Abrupt err)
  /\ statusWrites (since w w') = [1]
  /\ status (editor w') = 1
  /\ postDisabled (editor w') = true
  /\ error (editor w') = []
  /\ title (editor w') = title e /\ body (editor w') = body e
  /\ media (editor w') = media e /\ category (editor w') = category e.
Proof.
  intros Hv Hn. cbv zeta. revert Hn.
  run_valid w Hv; intros Hn; try discriminate Hn;
    (split; [eexists; reflexivity |]);
    (split; [read_calls; reflexivity |]);
    (split; [reflexivity |]);
    (split; [unfold postDisabled; cbn; now rewrite !orb_true_r |]);
    repeat split.
Qed.

End MoreSubmission.

Lemma valid_draft_sent_trimmed_witness :
  filter submitCall
    (since filledDraft (snd (updateArticle quietEnv newPost filledDraft)))
  = [ECreatePost (mkContent (lit "title") (lit "text") (lit "dapps") [])].
Proof.
  etransitivity.
  - apply (@valid_draft_sent_trimmed quietEnv newPost filledDraft).
    reflexivity.
  - reflexivity.
Defined.

Lemma refusal_names_first_missing_field_witness :
  let w := mkWorld blankTitleDraft None [] [] in
  error (editor (snd (updateArticle quietEnv newPost w)))
  = lit "Please enter a title".
Proof.
  intros w. etransitivity.
  - apply (@refusal_names_first_missing_field quietEnv newPost w).
    reflexivity.
  - reflexivity.
Defined.

Lemma failed_submission_keeps_draft_witness :
  let e' := editor (snd (updateArticle refusingEnv newPost filledDraft)) in
  title e' = lit "title" /\ body e' = lit "text"
  /\ error e' = lit "stream error".
Proof.
  destruct (@failed_submission_keeps_draft refusingEnv newPost filledDraft)
    as (Ht & Hb & _ & _ & He & _); [reflexivity | reflexivity |].
  split; [exact Ht | split; [exact Hb |]].
  etransitivity; [exact He | reflexivity].
Defined.

Lemma valueless_rejection_leaves_submitting_witness :
  let w' := snd (updateArticle silentEnv newPost filledDraft) in
  status (editor w') = 1 /\ postDisabled (editor w') = true
  /\ error (editor w') = [].
Proof.
  destruct (@valueless_rejection_leaves_submitting silentEnv newPost
              filledDraft) as (_ & _ & Hs & Hd & He & _);
    [reflexivity | reflexivity |].
  split; [exact Hs | split; [exact Hd | exact He]].
Defined.

Lemma success_disables_post_witness :
  let w' := snd (updateArticle quietEnv newPost filledDraft) in
  postDisabled (editor w') = true /\ status (editor w') = 2.
Proof.
  destruct (@success_disables_post quietEnv newPost filledDraft)
    as (Hd & _ & H); [reflexivity | reflexivity |].
  destruct H as (_ & Hs & _); [reflexivity |].
  split; [exact Hd | exact Hs].
Defined.

Lemma follow_up_failure_after_success_witness :
  let w' := snd (updateArticle storingEnv newPost filledDraft) in
  statusWrites (since filledDraft w') = [1; 2; 3; 0]
  /\ error (editor w') = lit "Route cancelled".
Proof.
  destruct (@follow_up_failure_after_success storingEnv newPost filledDraft
              (lit "Route cancelled"))
    as (Hs & _ & _ & _ & _ & _ & He & _);
    [reflexivity | reflexivity | reflexivity |].
  split; [exact Hs |]. etransitivity; [exact He | reflexivity].
Defined.


(** ** More on image upload *)

Ltac run_handler w := open_world w; exec_spec; split_cases; only_tt.

Section MoreAddImage.

Variable env : Env.

(** X8: an image whose upload is answered with 200 is written into the
    body as a Markdown image around the selection (or the placeholder
    "Image description"), with the link of the upload as target, and the
    upload's result is appended to media; the error message stays. *)
Theorem uploaded_image_inserted (f : File) (r : UploadRes) (w : World)
    (text : jsstring) (start_ end_ : nat) (foc : bool) :
  startsWith (lit "image/") (fileType f) = true ->
  uploadMedia env f = Resolves r ->
  up_status r = 200 ->
  textareaRef w = Some (mkTextarea text start_ end_ foc) ->
  start_ <= end_ -> end_ <= length text ->
  let w' := snd (addImage env (Some f) w) in
  body (editor w')
  = slice text 0 start_ ++ lit "!["
    ++ selected_or start_ end_ text (lit "Image description")
    ++ (lit "](" ++ getIpfsLink env (up_result r) ++ lit ")")
    ++ slice_from text end_
  /\ media (editor w') = media (editor w) ++ [up_result r]
  /\ error (editor w') = error (editor w)
  /\ mediaLoading (editor w') = false
  /\ filter uploadCall (since w w') = [EUploadMedia f]
  /\ fst (addImage env (Some f) w) = Normal tt.
Proof.
  intros Himg Hup H200 Hta Hse He.
  open_world w. subst. exec. rewrite Himg, Hup. cbv beta iota.
  rewrite H200, Nat.eqb_refl. cbv beta iota.
  rewrite wrapCompute_newText by assumption.
  repeat split. read_calls. reflexivity.
Qed.

(** X9: when the upload succeeded but the textarea is gone (the ref is
    unset), the [TypeError] of the wrap helper is reported as a failed
    upload: the error message is set and the upload's result is not
    appended to media. *)
Theorem uploaded_image_lost_without_textarea (f : File) (r : UploadRes)
    (w : World) :
  startsWith (lit "image/") (fileType f) = true ->
  uploadMedia env f = Resolves r ->
  up_status r = 200 ->
  textareaRef w = None ->
  let w' := snd (addImage env (Some f) w) in
  error (editor w') = lit "Failed to upload image. Please try again."
  /\ media (editor w') = media (editor w)
  /\ body (editor w') = body (editor w)
  /\ filter uploadCall (since w w') = [EUploadMedia f]
  /\ fst (addImage env (Some f) w) = Normal tt.
Proof.
  intros Himg Hup H200 Hta.
  open_world w. subst. exec. rewrite Himg, Hup. cbv beta iota.
  rewrite H200, Nat.eqb_refl. cbv beta iota.
  repeat split. read_calls. reflexivity.
Qed.

(** X10: whatever the file and whatever the upload does, [addImage] ends
    normally with the loading flag cleared, makes at most one upload
    call, leaves title, category and status alone, and leaves media as it
    was or with one reference more. *)
Theorem addImage_always_completes (file : option File) (w : World) :
  let e := editor w in
  let w' := snd (addImage env file w) in
  fst (addImage env file w) = Normal tt
  /\ mediaLoading (editor w') = false
  /\ length (filter uploadCall (since w w')) <= 1
  /\ title (editor w') = title e /\ category (editor w') = category e
  /\ status (editor w') = status e
  /\ (media (editor w') = media e
      \/ exists m, media (editor w') = media e ++ [m]).
Proof.
  cbv zeta. run_handler w;
    (split; [reflexivity |]); (split; [reflexivity |]);
    (split; [read_calls; cbn [length]; lia |]);
    repeat (split; [reflexivity |]); eauto.
Qed.

(** ** The points request *)

(** X11: [awardPoints] never throws: it issues exactly one request, with
    the identifier and the points it was given, returns the parsed body of
    an ok answer and [null] in every other case (network failure, answer
    not ok, unreadable body), and writes no cell. *)
Theorem awardPoints_never_throws (d : jsstring) (points : N) (w : World) :
  let w' := snd (awardPoints env d points w) in
  fst (awardPoints env d points w)
  = Normal (awarded (fetchAwardPoints env d points))
  /\ filter awardRequest (since w w') = [EFetchAwardPoints d points]
  /\ filter cellWrite (since w w') = []
  /\ editor w' = editor w
  /\ textareaRef w' = textareaRef w.
Proof.
  cbv zeta. open_world w. unfold awardPoints, awarded. exec.
  destruct (fetchAwardPoints env d points) as [[[|] [j | err]] | err];
    cbn [ok json]; cbv beta iota; repeat split; read_calls; reflexivity.
Qed.

(** ** Generation *)

(** X12: without a connected user the generator only alerts: no request is
    made and no cell is written. *)
Theorem generate_needs_user (w : World) :
  user env = None ->
  let w' := snd (generatePostWithAI env w) in
  editor w' = editor w
  /\ since w w' = [EAlert (lit "You must be connected to use this feature.")].
Proof.
  intros Hu. cbv zeta. open_world w. exec. rewrite Hu. cbv beta iota.
  split; [reflexivity | read_calls; reflexivity].
Qed.

(** X13: with a connected user the generator makes one request and always
    ends normally with its loading flag cleared; the delivered text
    replaces the whole body and the error message stays, and on any
    failure the body stays and the error message is set; title, media,
    category and status are never touched. *)
Theorem generate_replaces_body_or_reports (u : User) (w : World) :
  user env = Some u ->
  let e := editor w in
  let w' := snd (generatePostWithAI env w) in
  fst (generatePostWithAI env w) = Normal tt
  /\ isAILoading (editor w') = false
  /\ filter generateCall (since w w') = [EFetchGenerate]
  /\ body (editor w')
     = match generated (fetchGenerate env) with
       | Some text => text
       | None => body e
       end
  /\ error (editor w')
     = match generated (fetchGenerate env) with
       | Some _ => error e
       | None => lit "Failed to generate post. Please try again."
       end
  /\ title (editor w') = title e /\ media (editor w') = media e
  /\ category (editor w') = category e /\ status (editor w') = status e.
Proof.
  intros Hu. cbv zeta. open_world w. unfold generated. exec.
  rewrite Hu. cbv beta iota.
  destruct (fetchGenerate env) as [[[|] [j | err]] | err];
    cbn [ok json]; cbv beta iota; repeat split; read_calls; reflexivity.
Qed.

(** ** Links *)

(** X14: when the prompt is cancelled or left empty, [addLink] changes
    nothing: no cell is written and no selection callback is queued. *)
Theorem addLink_cancelled (w : World) :
  noUrl (promptAnswer env) = true ->
  let w' := snd (addLink env w) in
  editor w' = editor w /\ timers w' = timers w
  /\ since w w' = [EPrompt (lit "Enter URL:")].
Proof.
  intros Hn. cbv zeta. revert Hn. unfold noUrl.
  open_world w. exec.
  destruct (promptAnswer env) as [url |]; [intros ->; cbv beta iota |];
    repeat split; read_calls; reflexivity.
Qed.

(** X15: with a URL, [addLink] wraps the selection (or the placeholder
    "link text") as a Markdown link to that URL. *)
Theorem addLink_wraps_selection (url : jsstring) (w : World)
    (text : jsstring) (start_ end_ : nat) (foc : bool) :
  promptAnswer env = Some url -> falsy url = false ->
  textareaRef w = Some (mkTextarea text start_ end_ foc) ->
  start_ <= end_ -> end_ <= length text ->
  body (editor (snd (addLink env w)))
  = slice text 0 start_ ++ lit "["
    ++ selected_or start_ end_ text (lit "link text")
    ++ (lit "](" ++ url ++ lit ")") ++ slice_from text end_.
Proof.
  intros Hp Hu Hta Hse He. open_world w. subst. exec.
  rewrite Hp, Hu. cbv beta iota.
  now rewrite wrapCompute_newText by assumption.
Qed.

End MoreAddImage.

Lemma uploaded_image_inserted_witness :
  let w' := snd (addImage storingEnv (Some pngFile) filledDraft) in
  body (editor w') = lit "text![Image description](ipfs://cat.png)"
  /\ media (editor w') = [mkMediaRef (lit "cat.png")].
Proof.
  destruct (@uploaded_image_inserted storingEnv pngFile
              (mkUploadRes 200 (mkMediaRef (lit "cat.png"))) filledDraft
              (lit "text") 4 4 false)
    as (Hb & Hm & _); try reflexivity.
  split; [etransitivity; [exact Hb | reflexivity]
         | etransitivity; [exact Hm | reflexivity]].
Defined.

Lemma uploaded_image_lost_without_textarea_witness :
  let w' := snd (addImage storingEnv (Some pngFile) unmountedDraft) in
  error (editor w') = lit "Failed to upload image. Please try again."
  /\ media (editor w') = [].
Proof.
  destruct (@uploaded_image_lost_without_textarea storingEnv pngFile
              (mkUploadRes 200 (mkMediaRef (lit "cat.png"))) unmountedDraft)
    as (He & Hm & _); try reflexivity.
  split; [exact He | exact Hm].
Defined.

Lemma generate_needs_user_witness :
  editor (snd (generatePostWithAI quietEnv filledDraft)) = editor filledDraft.
Proof.
  exact (proj1 (@generate_needs_user quietEnv filledDraft eq_refl)).
Defined.

Lemma generate_replaces_body_or_reports_witness :
  let w' := snd (generatePostWithAI storingEnv filledDraft) in
  body (editor w') = lit "gm web3" /\ isAILoading (editor w') = false.
Proof.
  destruct (@generate_replaces_body_or_reports storingEnv alice filledDraft
              eq_refl) as (_ & Hl & _ & Hb & _).
  split; [exact Hb | exact Hl].
Defined.

Lemma addLink_cancelled_witness :
  editor (snd (addLink quietEnv filledDraft)) = editor filledDraft.
Proof.
  exact (proj1 (@addLink_cancelled quietEnv filledDraft eq_refl)).
Defined.

Lemma addLink_wraps_selection_witness :
  body (editor (snd (addLink storingEnv helloWorld)))
  = lit "hello [world](https://a.io)".
Proof.
  etransitivity.
  - apply (@addLink_wraps_selection storingEnv (lit "https://a.io")
             helloWorld (lit "hello world") 6 11 false);
      first [reflexivity | vm_compute; repeat constructor].
  - reflexivity.
Defined.


(** ** More on the text-wrap helper *)

Lemma firstn_app_exact {A} (l r : list A) : firstn (length l) (l ++ r) = l.
Proof. rewrite firstn_app, firstn_all, Nat.sub_diag. apply app_nil_r. Qed.

Lemma three_parts (text : jsstring) (a b : nat) :
  a <= b -> firstn a text ++ slice text a b ++ skipn b text = text.
Proof.
  intros Hab. unfold slice.
  replace (skipn b text) with (skipn (b - a) (skipn a text))
    by (rewrite skipn_skipn; f_equal; lia).
  now rewrite firstn_skipn, firstn_skipn.
Qed.

(** The new buffer, part by part. *)
Lemma wrapCompute_parts (text before after defaultText : jsstring)
    (start_ end_ : nat) (foc : bool) :
  start_ <= end_ -> end_ <= length text ->
  let r := wrapCompute (mkTextarea text start_ end_ foc) before after
             defaultText in
  selectedText r = selected_or start_ end_ text defaultText
  /\ newText r
     = firstn start_ text ++ before ++ selectedText r ++ after
       ++ skipn end_ text
  /\ rangeStart r = length (firstn start_ text ++ before)
  /\ rangeEnd r
     = length (firstn start_ text ++ before) + length (selectedText r).
Proof.
  intros Hse He. unfold wrapCompute.
  cbn [selectedText newText rangeStart rangeEnd value selectionStart
       selectionEnd].
  rewrite substring_prefix, substring_suffix, selected_or_substring
    by assumption.
  rewrite length_app, length_firstn, Nat.min_l by lia. repeat split.
Qed.

(** X16: the wrap helper loses no text: for a selection inside the buffer
    the new buffer is longer by the delimiters (and by the placeholder
    when nothing was selected), and deleting what was inserted gives the
    old buffer back. *)
Theorem wrapText_loses_no_text (text before after defaultText : jsstring)
    (start_ end_ : nat) (foc : bool) :
  start_ <= end_ -> end_ <= length text ->
  let r := wrapCompute (mkTextarea text start_ end_ foc) before after
             defaultText in
  length (newText r)
  = length text + length before + length after
    + (if start_ <? end_ then 0 else length defaultText)
  /\ firstn start_ (newText r)
     ++ (if start_ <? end_
         then slice (newText r) (rangeStart r) (rangeEnd r)
         else [])
     ++ skipn (rangeEnd r + length after) (newText r)
     = text.
Proof.
  intros Hse He r.
  destruct (wrapCompute_parts text before after defaultText foc Hse He)
    as (Hsel & Hnew & Ha & Hb).
  fold r in Hsel, Hnew, Ha, Hb.
  assert (HA : length (firstn start_ text) = start_)
    by (rewrite length_firstn; lia).
  assert (Hfirst : firstn start_ (newText r) = firstn start_ text).
  { rewrite Hnew. rewrite <- HA at 1. apply firstn_app_exact. }
  assert (Hlast : skipn (rangeEnd r + length after) (newText r)
                  = skipn end_ text).
  { rewrite Hb, Hnew, <- !length_app.
    rewrite (app_assoc (firstn start_ text) before),
      (app_assoc _ (selectedText r)), (app_assoc _ after).
    apply skipn_app_exact. }
  assert (Hmid : slice (newText r) (rangeStart r) (rangeEnd r)
                 = selectedText r).
  { rewrite <- substring_ordered by lia. rewrite Ha, Hb, Hnew.
    rewrite app_assoc. apply substring_middle. }
  split.
  - rewrite Hnew, !length_app, HA, length_skipn, Hsel. unfold selected_or.
    destruct (Nat.ltb_spec start_ end_); [rewrite slice_length |]; lia.
  - rewrite Hfirst, Hlast, Hmid, Hsel. unfold selected_or.
    destruct (Nat.ltb_spec start_ end_).
    + now apply three_parts.
    + replace end_ with start_ by lia. apply firstn_skipn.
Qed.

Lemma wrapText_loses_no_text_witness :
  let r := wrapCompute (mkTextarea (lit "hello world") 6 11 false) (lit "**")
             (lit "**") (lit "bold text") in
  length (newText r) = 15
  /\ firstn 6 (newText r) ++ slice (newText r) 8 13 ++ skipn 15 (newText r)
     = lit "hello world".
Proof.
  destruct (@wrapText_loses_no_text (lit "hello world") (lit "**") (lit "**")
              (lit "bold text") 6 11 false) as [Hl Ht].
  - repeat constructor.
  - vm_compute. repeat constructor.
  - split; [exact Hl | exact Ht].
Defined.

(** After the helper has run and the component has rendered, the textarea
    holds the new buffer with the computed range selected. *)
Lemma wrapText_settled (text before after defaultText : jsstring)
    (start_ end_ : nat) (foc : bool) (w : World) :
  start_ <= end_ -> end_ <= length text ->
  textareaRef w = Some (mkTextarea text start_ end_ foc) ->
  let r := wrapCompute (mkTextarea text start_ end_ foc) before after
             defaultText in
  let w' := settle (snd (wrapText before after defaultText w)) in
  exists foc',
    textareaRef w'
    = Some (mkTextarea (newText r) (rangeStart r) (rangeEnd r) foc').
Proof.
  intros Hse He Hw r w'. subst w'.
  rewrite (wrapText_mounted before after defaultText w Hw). fold r.
  unfold settle.
  cbn [snd textareaRef editor body with_body timers option_map].
  rewrite fold_left_app. cbn [fold_left].
  set (T := fold_left fireTimer (timers w) _).
  assert (HT : value T = newText r)
    by (unfold T; now rewrite fireTimers_value, syncTextarea_value).
  destruct (wrapCompute_parts text before after defaultText foc Hse He)
    as (_ & Hnew & Ha & Hb).
  fold r in Hnew, Ha, Hb.
  assert (Hlen : rangeEnd r <= length (value T)).
  { rewrite HT, Hb, Hnew, !length_app. lia. }
  destruct (@fireTimer_within T (rangeStart r) (rangeEnd r)) as [H1 H2];
    [lia | exact Hlen |].
  pose proof (fireTimer_value T (mkTimer (rangeStart r) (rangeEnd r))) as H3.
  destruct (fireTimer T (mkTimer (rangeStart r) (rangeEnd r)))
    as [v a b foc'].
  cbn [value selectionStart selectionEnd] in H1, H2, H3.
  exists foc'. now rewrite H1, H2, H3, HT.
Qed.

(** X17: formatting commands nest: a second wrap issued right after a first
    one puts its delimiters inside the first's, around the same text (or
    around its own placeholder when the first left nothing selected). *)
Theorem wraps_nest (text p1 s1 f1 p2 s2 f2 : jsstring) (start_ end_ : nat)
    (foc : bool) (w : World) :
  start_ <= end_ -> end_ <= length text ->
  textareaRef w = Some (mkTextarea text start_ end_ foc) ->
  let w1 := settle (snd (wrapText p1 s1 f1 w)) in
  body (editor (snd (wrapText p2 s2 f2 w1)))
  = slice text 0 start_ ++ p1 ++ p2
    ++ or_else (selected_or start_ end_ text f1) f2
    ++ s2 ++ s1 ++ slice_from text end_.
Proof.
  intros Hse He Hw w1.
  destruct (wrapText_settled p1 s1 f1 w Hse He Hw) as (foc' & Hw1).
  fold w1 in Hw1.
  destruct (wrapCompute_parts text p1 s1 f1 foc Hse He)
    as (Hsel & Hnew & Ha & Hb).
  set (r := wrapCompute (mkTextarea text start_ end_ foc) p1 s1 f1) in *.
  rewrite (wrapText_mounted p2 s2 f2 w1 Hw1).
  cbn [snd editor body with_body]. unfold wrapCompute at 1.
  cbn [newText value selectionStart selectionEnd].
  rewrite substring_prefix, substring_suffix.
  set (X := firstn start_ text ++ p1) in *.
  assert (Hnew' : newText r = X ++ selectedText r ++ s1 ++ skipn end_ text)
    by (rewrite Hnew; unfold X; now rewrite <- app_assoc).
  assert (H1 : firstn (rangeStart r) (newText r) = X)
    by (rewrite Ha, Hnew'; apply firstn_app_exact).
  assert (H2 : substring (newText r) (rangeStart r) (rangeEnd r)
               = selectedText r)
    by (rewrite Ha, Hb, Hnew'; apply substring_middle).
  assert (H3 : skipn (rangeEnd r) (newText r) = s1 ++ skipn end_ text).
  { rewrite Hb, Hnew', <- length_app, app_assoc. apply skipn_app_exact. }
  rewrite H1, H2, H3, Hsel. unfold X, slice, slice_from. cbn [skipn].
  rewrite Nat.sub_0_r, <- !app_assoc. reflexivity.
Qed.

(** Bold, then italic, around "world". *)
Lemma wraps_nest_witness :
  body (editor (snd (addItalic
    (settle (snd (addBold helloWorld))))))
  = lit "hello **_world_**".
Proof.
  etransitivity.
  - apply (@wraps_nest (lit "hello world") (lit "**") (lit "**")
             (lit "bold text") (lit "_") (lit "_") (lit "italic text")
             6 11 false helloWorld).
    + repeat constructor.
    + vm_compute. repeat constructor.
    + reflexivity.
  - reflexivity.
Defined.

(** ** The button and the handler's checks *)

Lemma truthy_of_not_blank (s : jsstring) : blank s = false -> falsy s = false.
Proof. destruct s; [discriminate | reflexivity]. Qed.

(** X18: the handler's checks are the stricter ones: a draft they accept
    has the Post button enabled, except while a submission is running. *)
Theorem valid_draft_enables_post (e : Editor) :
  valid e = true -> postDisabled e = (status e =? 1).
Proof.
  unfold valid, postDisabled.
  rewrite !andb_true_iff, !negb_true_iff. intros [[Hc Ht] Hb].
  now rewrite Hc, (truthy_of_not_blank _ Ht), (truthy_of_not_blank _ Hb).
Qed.

Lemma valid_draft_enables_post_witness :
  postDisabled (editor filledDraft) = false.
Proof.
  etransitivity.
  - apply (@valid_draft_enables_post (editor filledDraft)). reflexivity.
  - reflexivity.
Defined.

(** X19: an editor opened on an existing post whose stored fields pass the
    checks sends, on a click on Post, one edit of that post (never a
    creation), with the stored content trimmed. *)
Theorem existing_post_is_edited (env : Env) (p : Post)
    (cb : option (Outcome unit)) :
  valid (initEditor (Some p)) = true ->
  let props := mkProps (Some p) cb in
  let w := mount props in
  filter submitCall (since w (snd (dispatch env props ClickPost w)))
  = [EEditPost (stream_id p)
       (mkContent (trim (c_title (content p))) (trim (c_body (content p)))
          (c_context (content p)) (c_media (content p)))].
Proof.
  intros Hv props w.
  assert (Hd : postDisabled (editor w) = false).
  { unfold postDisabled, valid in *. cbn in *.
    apply andb_true_iff in Hv as [Hv Hb].
    apply andb_true_iff in Hv as [Hc Ht].
    apply negb_true_iff in Hc, Ht, Hb.
    now rewrite Hc, (truthy_of_not_blank _ Ht), (truthy_of_not_blank _ Hb). }
  unfold dispatch, snapshot, bind at 1. rewrite Hd.
  now rewrite valid_draft_one_call.
Qed.

Lemma existing_post_is_edited_witness :
  let p := mkPost (lit "kjzl6")
             (mkContent (lit " title ") (lit "text") (lit "dapps") []) in
  let props := mkProps (Some p) None in
  filter submitCall
    (since (mount props)
       (snd (dispatch quietEnv props ClickPost (mount props))))
  = [EEditPost (lit "kjzl6")
       (mkContent (lit "title") (lit "text") (lit "dapps") [])].
Proof.
  intros p props.
  etransitivity.
  - apply (@existing_post_is_edited quietEnv p None). reflexivity.
  - reflexivity.
Defined.

(** ** What holds between any two user actions *)

Section Invariants.

Variable env : Env.
Variable props : Props.

Lemma step_settled (w : World) (a : Action) :
  settled (editor w) = true -> settled (editor (step env props w a)) = true.
Proof.
  unfold settled at 1. rewrite !andb_true_iff, !negb_true_iff.
  intros [[Hs Hm] Hai]. open_world w. subst.
  destruct a; cbv beta iota delta [settled]; exec; split_cases;
    rewrite ?Hs; reflexivity.
Qed.

Lemma run_settled (l : list Action) (w : World) :
  settled (editor w) = true -> settled (editor (run env props w l)) = true.
Proof.
  revert w. induction l as [| a l IH]; intros w H; [exact H |].
  cbn [run fold_left]. apply IH. now apply step_settled.
Qed.

(** A case in which an awaited promise is rejected without a value does
    not arise. *)
Ltac no_valueless Hcp Hep Hrr Hcb :=
  exfalso;
  first [ eapply Hcp; eassumption | eapply Hep; eassumption
        | apply Hrr; assumption | apply Hcb; assumption ].

Lemma step_atRest (w : World) (a : Action) :
  rejectsWithValues env props ->
  atRest (editor w) = true -> atRest (editor (step env props w a)) = true.
Proof.
  intros (Hcp & Hep & Hrr & Hcb).
  unfold atRest at 1. rewrite !andb_true_iff, !negb_true_iff.
  intros [[Hs Hm] Hai]. open_world w. subst.
  destruct a; cbv beta iota delta [atRest]; exec; split_cases;
    rewrite ?Hs; first [reflexivity | no_valueless Hcp Hep Hrr Hcb].
Qed.

Lemma run_atRest (l : list Action) (w : World) :
  rejectsWithValues env props ->
  atRest (editor w) = true -> atRest (editor (run env props w l)) = true.
Proof.
  intros Hval. revert w. induction l as [| a l IH]; intros w H; [exact H |].
  cbn [run fold_left]. apply IH. now apply step_atRest.
Qed.

Lemma offered_tag (k : Category) : offered (categoryTag k) = true.
Proof. destruct k; reflexivity. Qed.

Lemma step_offered (w : World) (a : Action) :
  offered (category (editor w)) = true ->
  offered (category (editor (step env props w a))) = true.
Proof.
  intros H. open_world w.
  destruct a; exec; split_cases;
    first [exact H | apply offered_tag | reflexivity].
Qed.

Lemma run_offered (l : list Action) (w : World) :
  offered (category (editor w)) = true ->
  offered (category (editor (run env props w l))) = true.
Proof.
  revert w. induction l as [| a l IH]; intros w H; [exact H |].
  cbn [run fold_left]. apply IH. now apply step_offered.
Qed.

Lemma jsstring_eqb_eq (a b : jsstring) : jsstring_eqb a b = true -> a = b.
Proof.
  unfold jsstring_eqb. now destruct (list_eq_dec N.eq_dec a b).
Qed.

Lemma offered_not_blank (c : jsstring) :
  offered c = true -> falsy c = false -> blank c = false.
Proof.
  unfold offered. intros H Hf. rewrite Hf in H. cbn [orb] in H.
  apply existsb_exists in H as (k & _ & Hk).
  apply jsstring_eqb_eq in Hk as ->. now destruct k.
Qed.

End Invariants.

(** X20: whatever the user does, from the mounted component on, between two
    actions the two loading flags are down and the status is not error;
    and when no promise the submission awaits is rejected with
    [undefined] or [null], no submission is left in progress either: the
    status is idle or success. *)
Theorem editor_at_rest_between_actions (env : Env) (props : Props)
    (l : list Action) :
  let e := editor (run env props (mount props) l) in
  mediaLoading e = false /\ isAILoading e = false /\ status e <= 2
  /\ (rejectsWithValues env props -> status e = 0 \/ status e = 2).
Proof.
  intros e.
  assert (H : settled e = true).
  { apply run_settled. unfold mount. now destruct (post props). }
  unfold settled in H. rewrite !andb_true_iff, !negb_true_iff in H.
  destruct H as [[Hs Hm] Hai]. apply Nat.leb_le in Hs.
  repeat split; trivial.
  intros Hval.
  assert (H : atRest e = true).
  { apply run_atRest; [exact Hval |]. unfold mount. now destruct (post props). }
  unfold atRest in H. rewrite !andb_true_iff in H.
  destruct H as [[H _] _].
  apply orb_true_iff in H as [H | H]; apply Nat.eqb_eq in H; auto.
Qed.

Lemma editor_at_rest_between_actions_witness :
  status (editor secondDraft) = 0 \/ status (editor secondDraft) = 2.
Proof.
  apply (@editor_at_rest_between_actions quietEnv newPost
           [PickCategory Dapps; TypeTitle (lit "first"); TypeBody (lit "text");
            ClickPost;
            PickCategory Events; TypeTitle (lit "second");
            TypeBody (lit "more")]).
  repeat split; intros; discriminate.
Defined.

(** X21: in an editor for a new post the category is, whatever the user
    does, empty or one of the nine tags of the dropdown; so it is never
    whitespace-only, and a non-empty category is a real one. *)
Theorem new_post_category_is_offered (env : Env) (props : Props)
    (l : list Action) :
  post props = None ->
  let e := editor (run env props (mount props) l) in
  offered (category e) = true
  /\ (falsy (category e) = false -> blank (category e) = false).
Proof.
  intros Hp e.
  assert (H : offered (category e) = true).
  { apply run_offered. unfold mount. now rewrite Hp. }
  split; [exact H | now apply offered_not_blank].
Qed.

Lemma new_post_category_is_offered_witness :
  let e := editor secondDraft in
  offered (category e) = true
  /\ (falsy (category e) = false -> blank (category e) = false).
Proof.
  apply (@new_post_category_is_offered quietEnv newPost). reflexivity.
Defined.
